(** * PromptSpec (Python): the template engine and the manager, verified

    A shallow embedding of [promptspec/core/prompt_template.py],
    [promptspec/core/prompt_manager.py] and [promptspec/models/*.py].

    - Python strings are [string] (one [ascii] per character).
    - A dict whose iteration order is observed (declared placeholders, the
      manager's registry) is an insertion-ordered association list, [dict];
      the replacements mapping, which is only ever looked up, is a [gmap].
    - A method is a computation over its receiver [self] that either returns
      or raises: the monad [M]. *)

From Stdlib Require Import String Ascii ZArith QArith List Bool Lia.
From Stdlib Require Import DecimalString.
From stdpp Require Import gmap strings list.
Import ListNotations.

Local Open Scope Z_scope.
Local Open Scope nat_scope.
Local Open Scope stdpp_scope.

(* ===================================================================== *)
(** ** Exceptions *)
(* ===================================================================== *)

(** [promptspec/exceptions/prompt_exceptions.py], with the built-in and
    third-party exceptions the manager catches.  A
    [PromptValidationException] carries its message and, when raised
    [from e], its cause. *)
#[warnings="-register-all"]
Inductive exn : Type :=
| ValueError (msg : string)
| TypeError (msg : string)
| YAMLError (msg : string)
| ValidationError (msg : string)
| PromptValidationException (msg : string) (cause : option exn)
| MissingPlaceholderException (placeholder_name : string)
| PlaceholderTypeException (placeholder_name expected_type actual_type : string)
| PromptNotFoundException (prompt_name : string).

(** [isinstance(e, yaml.YAMLError)]. *)
Definition is_YAMLError (e : exn) : bool :=
  match e with YAMLError _ => true | _ => false end.

(** [isinstance(e, PromptValidationException)]: the class and its two
    subclasses. *)
Definition is_PromptValidationException (e : exn) : bool :=
  match e with
  | PromptValidationException _ _
  | MissingPlaceholderException _
  | PlaceholderTypeException _ _ _ => true
  | _ => false
  end.

Inductive result (A : Type) : Type :=
| Ok (a : A)
| Raise (e : exn).
Arguments Ok {A} a.
Arguments Raise {A} e.

(* ===================================================================== *)
(** ** Python values and classes *)
(* ===================================================================== *)

(** The runtime values a replacements mapping carries: instances of the
    built-in classes [str], [int], [float], [bool] and [NoneType]
    themselves, and objects of any other class.  A float is represented by
    the text [str] shows for it, which is all the engine asks of it; an
    object of another class by what [str] does on it, which is to return a
    text or to raise (a list that holds an int too long to print, an
    object whose [__str__] raises). *)
Inductive value : Type :=
| VStr (s : string)
| VInt (z : Z)
| VFloat (text : string)
| VBool (b : bool)
| VNone
| VOther (shown : result string).

Inductive pyclass : Type :=
| Cstr | Cint | Cfloat | Cbool | CNoneType | Cobject.

Definition type_of (v : value) : pyclass :=
  match v with
  | VStr _ => Cstr
  | VInt _ => Cint
  | VFloat _ => Cfloat
  | VBool _ => Cbool
  | VNone => CNoneType
  | VOther _ => Cobject
  end.

Definition pyclass_eqb (a b : pyclass) : bool :=
  match a, b with
  | Cstr, Cstr | Cint, Cint | Cfloat, Cfloat | Cbool, Cbool
  | CNoneType, CNoneType | Cobject, Cobject => true
  | _, _ => false
  end.

(** Python's class hierarchy on the built-in classes: every class derives
    from [object], and [bool] is a subclass of [int]. *)
Definition issubclass (c base : pyclass) : bool :=
  match c, base with
  | _, Cobject => true
  | Cbool, Cint => true
  | _, _ => pyclass_eqb c base
  end.

(** [isinstance(v, (c1, ..., cn))]. *)
Definition isinstance (v : value) (classes : list pyclass) : bool :=
  existsb (issubclass (type_of v)) classes.

(** CPython's default limit on the number of digits of an int that [str]
    will print ([sys.int_info.default_max_str_digits]). *)
Definition int_max_str_digits : Z := 4300.

(** The least magnitude that has more digits than the limit. *)
Definition int_str_bound : Z := (10 ^ int_max_str_digits)%Z.

(** [str(z)] for an int: decimal digits, with a minus sign when negative;
    an int of more than 4300 digits raises [ValueError]. *)
Definition str_of_int (z : Z) : result string :=
  if (int_str_bound <=? Z.abs z)%Z
  then Raise (ValueError
                "Exceeds the limit (4300 digits) for integer string conversion; use sys.set_int_max_str_digits() to increase the limit")
  else Ok (NilZero.string_of_int (Z.to_int z)).

(** The exception of [str] on an int that is too long. *)
Definition int_too_long : exn :=
  ValueError
    "Exceeds the limit (4300 digits) for integer string conversion; use sys.set_int_max_str_digits() to increase the limit".

(** [str(v)]: the text, or the exception the conversion raises. *)
Definition py_str (v : value) : result string :=
  match v with
  | VStr s => Ok s
  | VInt z => str_of_int z
  | VFloat text => Ok text
  | VBool true => Ok "True"
  | VBool false => Ok "False"
  | VNone => Ok "None"
  | VOther shown => shown
  end.

(* ===================================================================== *)
(** ** String helpers of the Python runtime *)
(* ===================================================================== *)

(** Characters [str.isspace] accepts, among the first 256 code points. *)
Definition isspace (c : ascii) : bool :=
  let n := nat_of_ascii c in
  ((9 <=? n) && (n <=? 13)) || ((28 <=? n) && (n <=? 32))
  || (n =? 133) || (n =? 160).

Definition is_empty (s : string) : bool :=
  match s with EmptyString => true | String _ _ => false end.

Fixpoint lstrip (s : string) : string :=
  match s with
  | EmptyString => EmptyString
  | String c s' => if isspace c then lstrip s' else s
  end.

Fixpoint rstrip (s : string) : string :=
  match s with
  | EmptyString => EmptyString
  | String c s' =>
      let r := rstrip s' in
      if isspace c && is_empty r then EmptyString else String c r
  end.

(** [s.strip()]. *)
Definition strip (s : string) : string := rstrip (lstrip s).

(** Truth value of a string: [bool(s)]. *)
Definition str_truthy (s : string) : bool := negb (is_empty s).

Definition lower_char (c : ascii) : ascii :=
  let n := nat_of_ascii c in
  if (65 <=? n) && (n <=? 90) then ascii_of_nat (n + 32) else c.

(** [s.lower()] on ASCII letters. *)
Fixpoint lower (s : string) : string :=
  match s with
  | EmptyString => EmptyString
  | String c s' => String (lower_char c) (lower s')
  end.

(** [sep.join(parts)] with an empty separator. *)
Fixpoint join (parts : list string) : string :=
  match parts with
  | [] => EmptyString
  | p :: rest => p +:+ join rest
  end.

(* ===================================================================== *)
(** ** Insertion-ordered dictionaries *)
(* ===================================================================== *)

Module PyDict.

Definition dict (V : Type) : Type := list (string * V).

Definition empty {V} : dict V := [].

(** [d.get(k)]: [None] when the key is absent. *)
Fixpoint get {V} (d : dict V) (k : string) : option V :=
  match d with
  | [] => None
  | (k', v) :: rest => if String.eqb k' k then Some v else get rest k
  end.

(** [k in d]. *)
Definition contains {V} (d : dict V) (k : string) : bool :=
  match get d k with Some _ => true | None => false end.

(** [d[k] = v]: overwrites in place, or appends a new last entry. *)
Fixpoint set {V} (d : dict V) (k : string) (v : V) : dict V :=
  match d with
  | [] => [(k, v)]
  | (k', v') :: rest =>
      if String.eqb k' k then (k', v) :: rest else (k', v') :: set rest k v
  end.

Definition keys {V} (d : dict V) : list string := map fst d.
Definition values {V} (d : dict V) : list V := map snd d.
Definition items {V} (d : dict V) : list (string * V) := d.
Definition len {V} (d : dict V) : nat := length d.

(** Truth value of a dict: non-empty. *)
Definition truthy {V} (d : dict V) : bool :=
  match d with [] => false | _ :: _ => true end.

End PyDict.

Import PyDict.

(* ===================================================================== *)
(** ** The method monad *)
(* ===================================================================== *)

(** A method body: from the receiver's state to an outcome and the state
    the receiver is left in.  An exception keeps the state reached when it
    was raised. *)
Definition M (S A : Type) : Type := S -> result A * S.

Definition ret {S A} (a : A) : M S A := fun s => (Ok a, s).

Definition raise {S A} (e : exn) : M S A := fun s => (Raise e, s).

Definition bind {S A B} (m : M S A) (k : A -> M S B) : M S B :=
  fun s =>
    match m s with
    | (Ok a, s') => k a s'
    | (Raise e, s') => (Raise e, s')
    end.

(** Reading an attribute of [self]. *)
Definition gets {S A} (f : S -> A) : M S A := fun s => (Ok (f s), s).

(** Mutating [self]. *)
Definition modify {S} (f : S -> S) : M S unit := fun s => (Ok tt, f s).

(** The outcome of a collaborator that touches no state of ours. *)
Definition lift {S A} (r : result A) : M S A := fun s => (r, s).

(** [try: m  except Exception as e: h e]. *)
Definition try_except {S A} (m : M S A) (h : exn -> M S A) : M S A :=
  fun s =>
    match m s with
    | (Raise e, s') => h e s'
    | out => out
    end.

Notation "x <- m ;; k" := (bind m (fun x => k))
  (at level 100, m at next level, right associativity).
Notation "m ;; k" := (bind m (fun _ => k))
  (at level 100, right associativity).

(** Statements run one after the other for each element of a list. *)
Fixpoint for_each {S A} (xs : list A) (body : A -> M S unit) : M S unit :=
  match xs with
  | [] => ret tt
  | x :: rest => body x ;; for_each rest body
  end.

(* ===================================================================== *)
(** ** The data model: [promptspec/models] *)
(* ===================================================================== *)

(** [PlaceholderType = Literal["string", "number", "boolean"]]. *)
Inductive PlaceholderType : Type := TString | TNumber | TBoolean.

(** The string a [PlaceholderType] is at run time. *)
Definition type_name (t : PlaceholderType) : string :=
  match t with
  | TString => "string"
  | TNumber => "number"
  | TBoolean => "boolean"
  end.

Record PlaceholderDefinition : Type := {
  type : PlaceholderType;
  required : bool
}.

(** [PlaceholderDefinition()] with its declared defaults. *)
Definition PlaceholderDefinition_default : PlaceholderDefinition :=
  {| type := TString; required := false |}.

Record LLMParameters : Type := {
  temperature : option Q;
  top_p : option Q;
  max_tokens : option Z;
  stop_sequences : option (list string)
}.

Record PromptSpecification : Type := {
  name : string;
  version : option string;
  description : option string;
  system_message : option string;
  template : string;
  parameters : option LLMParameters;
  llm_config : option (dict value);
  placeholders : option (dict PlaceholderDefinition);
  output_format : option string
}.

Record PromptCollection : Type := {
  prompts : list PromptSpecification
}.

(** Truth value of an [Optional[Dict]]: neither [None] nor empty. *)
Definition opt_truthy {V} (d : option (dict V)) : bool :=
  match d with
  | None => false
  | Some d => truthy d
  end.

(** *** Field constraints of [LLMParameters]

    The bounds are the ones the source declares with [Field(ge=, le=, gt=)];
    the validator below gives them the meaning pydantic documents for them:
    a supplied value must satisfy every bound of its field, a field left
    out (or [None]) takes the default [None] and is not checked, and a
    violation raises a [ValidationError] instead of adjusting the value.
    A float is read as the rational it is; the infinities and NaN are
    outside the model. *)
Record FieldInfo : Type := {
  ge : option Q;
  le : option Q;
  gt : option Q
}.

Definition satisfies (f : FieldInfo) (x : Q) : bool :=
  match ge f with Some b => Qle_bool b x | None => true end
  && match le f with Some b => Qle_bool x b | None => true end
  && match gt f with Some b => negb (Qle_bool x b) | None => true end.

Definition check_field (f : FieldInfo) (field_name : string) (x : option Q)
  : result unit :=
  match x with
  | None => Ok tt
  | Some x => if satisfies f x then Ok tt else Raise (ValidationError field_name)
  end.

Definition temperature_field : FieldInfo :=
  {| ge := Some 0%Q; le := Some 2%Q; gt := None |}.
Definition top_p_field : FieldInfo :=
  {| ge := Some 0%Q; le := Some 1%Q; gt := None |}.
Definition max_tokens_field : FieldInfo :=
  {| ge := None; le := None; gt := Some 0%Q |}.

(** [LLMParameters(temperature=.., top_p=.., max_tokens=..,
    stop_sequences=..)]; an argument left out is [None]. *)
Definition LLMParameters_init
    (temperature top_p : option Q) (max_tokens : option Z)
    (stop_sequences : option (list string)) : result LLMParameters :=
  match check_field temperature_field "temperature" temperature with
  | Raise e => Raise e
  | Ok _ =>
  match check_field top_p_field "top_p" top_p with
  | Raise e => Raise e
  | Ok _ =>
  match check_field max_tokens_field "max_tokens" (option_map inject_Z max_tokens) with
  | Raise e => Raise e
  | Ok _ =>
      Ok {| temperature := temperature; top_p := top_p;
            max_tokens := max_tokens; stop_sequences := stop_sequences |}
  end end end.

(** [LLMParameters()]. *)
Definition LLMParameters_default : result LLMParameters :=
  LLMParameters_init None None None None.

(* ===================================================================== *)
(** ** The regular expressions of [re] the engine uses *)
(* ===================================================================== *)

Module Re.

(** The pattern syntax [_PLACEHOLDER_REGEX] is written in: a literal
    character, a negated one-character class [[^c]], concatenation, the
    greedy [+], and a capturing group. *)
Inductive regex : Type :=
| Lit (c : ascii)
| NotChar (c : ascii)
| Seq (r1 r2 : regex)
| Plus (r : regex)
| Group (r : regex).

(** The text the matcher consumed in going from [s] to its suffix [s']. *)
Definition consumed (s s' : string) : string :=
  String.substring 0 (String.length s - String.length s') s.

(** Backtracking matcher in continuation-passing style: [k] receives what
    is left of the subject and the groups closed so far, and answers [None]
    to make the matcher try its next alternative.  [Plus] is greedy: it
    tries one more round before it lets the continuation run.  Every round
    of [Plus] costs one unit of [fuel]. *)
Fixpoint rmatch {R : Type} (fuel : nat)
  : regex -> string -> list string -> (string -> list string -> option R) -> option R :=
  fix go (r : regex) (s : string) (g : list string)
         (k : string -> list string -> option R) {struct r} : option R :=
    match r with
    | Lit c =>
        match s with
        | String c' s' => if Ascii.eqb c c' then k s' g else None
        | EmptyString => None
        end
    | NotChar c =>
        match s with
        | String c' s' => if Ascii.eqb c c' then None else k s' g
        | EmptyString => None
        end
    | Seq r1 r2 => go r1 s g (fun s1 g1 => go r2 s1 g1 k)
    | Group r1 => go r1 s g (fun s1 g1 => k s1 (g1 ++ [consumed s s1]))
    | Plus r1 =>
        match fuel with
        | O => None
        | S fuel' =>
            go r1 s g (fun s1 g1 =>
              match rmatch fuel' (Plus r1) s1 g1 k with
              | Some out => Some out
              | None => k s1 g1
              end)
        end
    end.

(** A match object: the text matched and the captured groups. *)
Record match_obj : Type := {
  group0 : string;
  groups : list string
}.

(** [m.group(i)] for [i >= 1]. *)
Definition group (m : match_obj) (i : nat) : string :=
  nth (i - 1) (groups m) EmptyString.

(** [pattern.match(s)]: a match anchored at the start of [s], with what
    follows it. *)
Definition match_at (r : regex) (s : string) : option (match_obj * string) :=
  rmatch (S (String.length s)) r s []
    (fun s' g => Some ({| group0 := consumed s s'; groups := g |}, s')).

(** What a left-to-right scan cuts the subject into: a character no match
    starts at, or a match. *)
Inductive piece : Type :=
| Skipped (c : ascii)
| Matched (m : match_obj).

(** The scan shared by [findall] and [sub]: at each position take the match
    that starts there and resume after it, or else step over one
    character.  A pattern of this syntax matches no empty text, so each
    step consumes at least one character, which is what [fuel] counts. *)
Fixpoint scan_fuel (fuel : nat) (r : regex) (s : string) : list piece :=
  match fuel with
  | O => []
  | S fuel' =>
      match s with
      | EmptyString => []
      | String c s' =>
          match match_at r s with
          | Some (m, rest) => Matched m :: scan_fuel fuel' r rest
          | None => Skipped c :: scan_fuel fuel' r s'
          end
      end
  end.

Definition scan (r : regex) (s : string) : list piece :=
  scan_fuel (String.length s) r s.

(** [pattern.findall(s)] for a pattern with exactly one group: the list of
    what the group captured. *)
Definition findall (r : regex) (s : string) : list string :=
  omap (fun p => match p with
                 | Matched m => Some (group m 1)
                 | Skipped _ => None
                 end) (scan r s).

(** [pattern.sub(repl, s)] with a function [repl]: called on each match in
    turn, from left to right; an exception it raises ends the call. *)
Fixpoint sub_pieces {S} (repl : match_obj -> M S string) (ps : list piece)
  : M S string :=
  match ps with
  | [] => ret EmptyString
  | Skipped c :: rest =>
      out <- sub_pieces repl rest ;; ret (String c out)
  | Matched m :: rest =>
      text <- repl m ;;
      out <- sub_pieces repl rest ;; ret (text +:+ out)
  end.

Definition sub {S} (r : regex) (repl : match_obj -> M S string) (s : string)
  : M S string :=
  sub_pieces repl (scan r s).

End Re.

(* ===================================================================== *)
(** ** The template engine: [core/prompt_template.py] *)
(* ===================================================================== *)

Record PromptTemplate : Type := {
  _specification : PromptSpecification
}.

(** [_PLACEHOLDER_REGEX = re.compile(r'\{([^}]+)\}')]. *)
Definition _PLACEHOLDER_REGEX : Re.regex :=
  Re.Seq (Re.Lit "{") (Re.Seq (Re.Group (Re.Plus (Re.NotChar "}"))) (Re.Lit "}")).

(** [_get_value_type]: the branches in the order the source tests them. *)
Definition _get_value_type (v : value) : string :=
  if isinstance v [Cstr] then "string"
  else if isinstance v [Cint; Cfloat] then "number"
  else if isinstance v [Cbool] then "boolean"
  else "string".

Definition _validate_type (placeholder_name : string) (v : value)
    (expected_type : string) : M PromptTemplate unit :=
  let actual_type := _get_value_type v in
  if negb (String.eqb (lower expected_type) (lower actual_type))
  then raise (PlaceholderTypeException placeholder_name expected_type actual_type)
  else ret tt.

(** [k in replacements]. *)
Definition has_key (replacements : gmap string value) (k : string) : bool :=
  match replacements !! k with
  | Some _ => true
  | None => false
  end.

(** The body of the loop of [_validate_placeholders], for one item of the
    declared map. *)
Definition validate_item (replacements : gmap string value)
    (item : string * PlaceholderDefinition) : M PromptTemplate unit :=
  let (placeholder_name, definition) := item in
  (if required definition && negb (has_key replacements placeholder_name)
   then raise (MissingPlaceholderException placeholder_name)
   else ret tt) ;;
  if has_key replacements placeholder_name then
    match replacements !! placeholder_name with
    | Some VNone | None => ret tt
    | Some v => _validate_type placeholder_name v (type_name (type definition))
    end
  else ret tt.

Definition _validate_placeholders (replacements : gmap string value)
  : M PromptTemplate unit :=
  declared <- gets (fun self => placeholders (_specification self)) ;;
  match declared with
  | Some d =>
      if truthy d then for_each (items d) (validate_item replacements)
      else ret tt
  | None => ret tt
  end.

(** The closure [replace_placeholder] of [generate_prompt]. *)
Definition replace_placeholder (replacements : gmap string value)
    (m : Re.match_obj) : M PromptTemplate string :=
  let placeholder_name := Re.group m 1 in
  if has_key replacements placeholder_name then
    match replacements !! placeholder_name with
    | Some VNone | None => ret EmptyString
    | Some v => lift (py_str v)
    end
  else
    declared <- gets (fun self => placeholders (_specification self)) ;;
    match declared with
    | Some d =>
        if truthy d then
          match get d placeholder_name with
          | Some definition =>
              if required definition
              then raise (MissingPlaceholderException placeholder_name)
              else ret EmptyString
          | None => ret EmptyString
          end
        else ret EmptyString
    | None => ret EmptyString
    end.

(** [generate_prompt]; the argument is [None] when the caller passed
    [None] for the mapping. *)
Definition generate_prompt (replacements : option (gmap string value))
  : M PromptTemplate string :=
  match replacements with
  | None => raise (ValueError "replacements cannot be None")
  | Some replacements =>
      declared <- gets (fun self => placeholders (_specification self)) ;;
      (if opt_truthy declared then _validate_placeholders replacements
       else ret tt) ;;
      text <- gets (fun self => template (_specification self)) ;;
      Re.sub _PLACEHOLDER_REGEX (replace_placeholder replacements) text
  end.

(** [get_template]. *)
Definition get_template : M PromptTemplate string :=
  gets (fun self => template (_specification self)).

(** [get_placeholder_names]: [list(set(matches))], the elements of the set
    in the order the set happens to give them. *)
Definition get_placeholder_names : M PromptTemplate (list string) :=
  text <- gets (fun self => template (_specification self)) ;;
  let matches := Re.findall _PLACEHOLDER_REGEX text in
  ret (elements (list_to_set matches : gset string)).

(** [get_parameters]: [self._specification.parameters or LLMParameters()];
    an instance of a pydantic model is always true. *)
Definition get_parameters : M PromptTemplate LLMParameters :=
  declared <- gets (fun self => parameters (_specification self)) ;;
  match declared with
  | Some p => ret p
  | None => lift LLMParameters_default
  end.

(** [get_model_config]: [self._specification.llm_config or {}]. *)
Definition get_model_config : M PromptTemplate (dict value) :=
  declared <- gets (fun self => llm_config (_specification self)) ;;
  ret (if opt_truthy declared then default empty declared else empty).

(* ===================================================================== *)
(** ** The manager: [core/prompt_manager.py] *)
(* ===================================================================== *)

Record PromptManager : Type := {
  _templates : dict PromptTemplate
}.

(** [PromptManager()]. *)
Definition PromptManager_init : PromptManager := {| _templates := empty |}.

(** [template_count]. *)
Definition template_count : M PromptManager nat :=
  gets (fun self => len (_templates self)).

(** [template_names]. *)
Definition template_names : M PromptManager (list string) :=
  gets (fun self => keys (_templates self)).

(** [not s or not s.strip()]; the argument is [None] when the caller
    passed [None]. *)
Definition none_or_blank (s : option string) : bool :=
  match s with
  | None => true
  | Some s => negb (str_truthy s) || negb (str_truthy (strip s))
  end.

(** The string an argument that passed the test above is. *)
Definition the_str (s : option string) : string := default EmptyString s.

(** [get_prompt]. *)
Definition get_prompt (prompt_name : option string)
  : M PromptManager (option PromptTemplate) :=
  if none_or_blank prompt_name
  then raise (ValueError "prompt_name cannot be None or empty")
  else gets (fun self => get (_templates self) (the_str prompt_name)).

(** [get_required_prompt]. *)
Definition get_required_prompt (prompt_name : option string)
  : M PromptManager PromptTemplate :=
  found <- get_prompt prompt_name ;;
  match found with
  | None => raise (PromptNotFoundException (the_str prompt_name))
  | Some t => ret t
  end.

(** [has_prompt]. *)
Definition has_prompt (prompt_name : option string) : M PromptManager bool :=
  match prompt_name with
  | None => ret false
  | Some n =>
      if str_truthy n && str_truthy (strip n)
      then gets (fun self => contains (_templates self) n)
      else ret false
  end.

(** [clear]. *)
Definition clear : M PromptManager unit :=
  modify (fun self => {| _templates := empty |}).

(** [get_all_prompts]. *)
Definition get_all_prompts : M PromptManager (list PromptTemplate) :=
  gets (fun self => values (_templates self)).

(** The check [_validate_specification] makes on one declared placeholder
    name. *)
Definition validate_placeholder_key (specification : PromptSpecification)
    (item : string * PlaceholderDefinition) : M PromptManager unit :=
  let (placeholder_name, _) := item in
  if negb (str_truthy (strip placeholder_name))
  then raise (PromptValidationException
                ("Placeholder name cannot be empty in prompt '"
                 +:+ name specification +:+ "'.") None)
  else ret tt.

(** [_validate_specification]. *)
Definition _validate_specification (specification : PromptSpecification)
  : M PromptManager unit :=
  (if negb (str_truthy (strip (name specification)))
   then raise (PromptValidationException
                 "Prompt name is required and cannot be empty." None)
   else ret tt) ;;
  (if negb (str_truthy (strip (template specification)))
   then raise (PromptValidationException
                 ("Template is required for prompt '"
                  +:+ name specification +:+ "' and cannot be empty.") None)
   else ret tt) ;;
  match placeholders specification with
  | Some d =>
      if truthy d
      then for_each (items d) (validate_placeholder_key specification)
      else ret tt
  | None => ret tt
  end.

(** What the two [except] clauses of the load methods do with an exception
    of the [try] body. *)
Definition load_handler {A} (e : exn) : M PromptManager A :=
  if is_YAMLError e
  then raise (PromptValidationException "Failed to parse YAML content." (Some e))
  else if is_PromptValidationException e then raise e
  else raise (PromptValidationException
                "An error occurred while loading templates." (Some e)).

(** A coroutine object: the body of an [async def], not yet run.  Creating
    it runs nothing; awaiting it runs the body, which here has no
    suspension point, to its end. *)
Inductive Coroutine (S A : Type) : Type :=
| Coro (body : M S A).
Arguments Coro {S A} body.

Definition await {S A} (c : Coroutine S A) : M S A :=
  match c with Coro body => body end.

Section Loading.

(** The collaborators: the YAML parser and the pydantic binding.
    [yaml_safe_load] is [yaml.safe_load]; [yaml_truthy] is the truth value
    of the parsed document; [yaml_contains k d] is [k in d], which raises
    for a document that is not a container; [model_validate] is
    [PromptCollection.model_validate]. *)
Variable yaml_data : Type.
Variable yaml_safe_load : string -> result yaml_data.
Variable yaml_truthy : yaml_data -> bool.
Variable yaml_contains : string -> yaml_data -> result bool.
Variable model_validate : yaml_data -> result PromptCollection.

(** The body of the [for] loop of [load_templates]. *)
Definition load_one (specification : PromptSpecification) : M PromptManager unit :=
  _validate_specification specification ;;
  present <- gets (fun self => contains (_templates self) (name specification)) ;;
  (if present
   then raise (PromptValidationException
                 ("Duplicate prompt name '" +:+ name specification +:+ "' found.")
                 None)
   else ret tt) ;;
  modify (fun self =>
    {| _templates :=
         set (_templates self) (name specification)
             {| _specification := specification |} |}).

(** [not yaml_data or 'prompts' not in yaml_data]. *)
Definition no_prompts_section (yaml : yaml_data) : M PromptManager bool :=
  if negb (yaml_truthy yaml) then ret true
  else
    present <- lift (yaml_contains "prompts" yaml) ;;
    ret (negb present).

(** [load_templates]. *)
Definition load_templates (yaml_content : option string) : M PromptManager unit :=
  if none_or_blank yaml_content
  then raise (ValueError "yaml_content cannot be None or empty")
  else
    try_except
      (yaml <- lift (yaml_safe_load (the_str yaml_content)) ;;
       missing <- no_prompts_section yaml ;;
       (if missing
        then raise (PromptValidationException
                      "Invalid YAML: No 'prompts' section found or it is null."
                      None)
        else ret tt) ;;
       prompt_collection <- lift (model_validate yaml) ;;
       clear ;;
       for_each (prompts prompt_collection) load_one)
      load_handler.

(** The body of the [for] loop of [load_templates_async]. *)
Definition load_one_async (specification : PromptSpecification)
  : M PromptManager unit :=
  _validate_specification specification ;;
  present <- gets (fun self => contains (_templates self) (name specification)) ;;
  (if present
   then raise (PromptValidationException
                 ("Duplicate prompt name '" +:+ name specification +:+ "' found.")
                 None)
   else ret tt) ;;
  modify (fun self =>
    {| _templates :=
         set (_templates self) (name specification)
             {| _specification := specification |} |}).

(** [load_templates_async]. *)
Definition load_templates_async (yaml_content : option string)
  : Coroutine PromptManager unit :=
  Coro
    (if none_or_blank yaml_content
     then raise (ValueError "yaml_content cannot be None or empty")
     else
       try_except
         (yaml <- lift (yaml_safe_load (the_str yaml_content)) ;;
          missing <- no_prompts_section yaml ;;
          (if missing
           then raise (PromptValidationException
                         "Invalid YAML: No 'prompts' section found or it is null."
                         None)
           else ret tt) ;;
          prompt_collection <- lift (model_validate yaml) ;;
          clear ;;
          for_each (prompts prompt_collection) load_one_async)
         load_handler).

(** The collection a document binds to, when the steps that precede the
    loop all succeed: the text is not blank, it parses, the parsed document
    has a [prompts] section, and the binding accepts it. *)
Definition bound_collection (yaml_content : option string)
  : option PromptCollection :=
  if none_or_blank yaml_content then None
  else
    match yaml_safe_load (the_str yaml_content) with
    | Raise _ => None
    | Ok yaml =>
        if negb (yaml_truthy yaml) then None
        else
          match yaml_contains "prompts" yaml with
          | Ok true =>
              match model_validate yaml with
              | Ok c => Some c
              | Raise _ => None
              end
          | _ => None
          end
    end.

End Loading.

(* ===================================================================== *)
(** ** Notions the statements below are written with *)
(* ===================================================================== *)

(** [c in s]. *)
Fixpoint has_char (c : ascii) (s : string) : bool :=
  match s with
  | EmptyString => false
  | String c' s' => Ascii.eqb c c' || has_char c s'
  end.

(** [s] begins with a placeholder named [n], and [rest] follows it: an
    opening brace, a non-empty name free of closing braces, a closing
    brace. *)
Definition placeholder_at (s n rest : string) : Prop :=
  s = String "{" (n +:+ String "}" rest)
  /\ n <> EmptyString /\ has_char "}" n = false.

(** [n] names a placeholder occurrence of [s], for the left-to-right scan
    that never looks inside an occurrence it has found: the occurrence at
    the start, or one in what follows it, or, if none starts here, one
    further right. *)
Inductive occurs (n : string) : string -> Prop :=
| occurs_here s rest :
    placeholder_at s n rest -> occurs n s
| occurs_after s n' rest :
    placeholder_at s n' rest -> occurs n rest -> occurs n s
| occurs_later c s :
    (forall n' rest, ~ placeholder_at (String c s) n' rest) ->
    occurs n s -> occurs n (String c s).

(** What a mapping puts in place of a placeholder named [n]: the text of
    the value when [n] is a key of the mapping, [None] giving the empty
    text, and the empty text when [n] is not a key; or the exception [str]
    raises on the value. *)
Definition replacement_text (replacements : gmap string value) (n : string)
  : result string :=
  match replacements !! n with
  | Some VNone => Ok EmptyString
  | Some v => py_str v
  | None => Ok EmptyString
  end.

(** A text put in front of a result. *)
Definition prepend (t : string) (res : result string) : result string :=
  match res with
  | Ok out => Ok (t +:+ out)
  | Raise e => Raise e
  end.

(** The result of substituting the placeholders of a text, read from left
    to right: where a placeholder starts, its replacement text followed by
    the substitution of what follows it, or the exception of its
    replacement, which ends the substitution; where none starts, the
    character as it is, followed by the substitution of the rest. *)
Inductive substitution (replacements : gmap string value)
  : string -> result string -> Prop :=
| substitution_end :
    substitution replacements EmptyString (Ok EmptyString)
| substitution_raise s n rest e :
    placeholder_at s n rest ->
    replacement_text replacements n = Raise e ->
    substitution replacements s (Raise e)
| substitution_fill s n rest t res :
    placeholder_at s n rest ->
    replacement_text replacements n = Ok t ->
    substitution replacements rest res ->
    substitution replacements s (prepend t res)
| substitution_char c s res :
    (forall n rest, ~ placeholder_at (String c s) n rest) ->
    substitution replacements s res ->
    substitution replacements (String c s) (prepend (String c EmptyString) res).

(** What one piece of the scanned template turns into: a character stays,
    a placeholder becomes its replacement. *)
Definition fill (replacements : gmap string value) (p : Re.piece)
  : result string :=
  match p with
  | Re.Skipped c => Ok (String c EmptyString)
  | Re.Matched m => replacement_text replacements (Re.group m 1)
  end.

(** The pieces filled from left to right, up to the first that raises. *)
Fixpoint fill_all (replacements : gmap string value) (ps : list Re.piece)
  : result string :=
  match ps with
  | [] => Ok EmptyString
  | p :: rest =>
      match fill replacements p with
      | Ok t => prepend t (fill_all replacements rest)
      | Raise e => Raise e
      end
  end.

(** A computation that leaves its receiver as it found it. *)
Definition readonly {S A} (m : M S A) : Prop := forall s, snd (m s) = s.

(** The outcome of a computation from a given state. *)
Definition outcome {S A} (m : M S A) (s : S) : result A := fst (m s).

(** Every declared placeholder passes the check [_validate_placeholders]
    makes on it (or none is declared). *)
Definition validated (replacements : gmap string value)
    (self : PromptTemplate) : Prop :=
  match placeholders (_specification self) with
  | Some d =>
      Forall (fun item => outcome (validate_item replacements item) self = Ok tt) d
  | None => True
  end.

(** The template of [self] with every piece filled. *)
Definition rendered (replacements : gmap string value)
    (self : PromptTemplate) : result string :=
  fill_all replacements
    (Re.scan _PLACEHOLDER_REGEX (template (_specification self))).

(** The match object of a placeholder named [n]. *)
Definition placeholder_match (n : string) : Re.match_obj :=
  {| Re.group0 := String "{" (n +:+ String "}" EmptyString);
     Re.groups := [n] |}.

(** The longest prefix free of closing braces, and what follows it. *)
Fixpoint name_of (s : string) : string :=
  match s with
  | EmptyString => EmptyString
  | String c s' => if Ascii.eqb "}" c then EmptyString else String c (name_of s')
  end.

Fixpoint after_name (s : string) : string :=
  match s with
  | EmptyString => EmptyString
  | String c s' => if Ascii.eqb "}" c then s else after_name s'
  end.

(** The part of the template a piece stands for. *)
Definition source (p : Re.piece) : string :=
  match p with
  | Re.Skipped c => String c EmptyString
  | Re.Matched m => Re.group0 m
  end.

(** A piece of a scanned template: a character, or a placeholder. *)
Definition placeholder_piece (p : Re.piece) : Prop :=
  match p with
  | Re.Skipped _ => True
  | Re.Matched m =>
      exists n, m = placeholder_match n
                /\ n <> EmptyString /\ has_char "}" n = false
  end.

(** The domains of the fields of [LLMParameters]; a field left out is in
    its domain. *)
Definition in_domain (temperature top_p : option Q) (max_tokens : option Z)
  : Prop :=
  match temperature with Some x => (0 <= x /\ x <= 2)%Q | None => True end
  /\ match top_p with Some x => (0 <= x /\ x <= 1)%Q | None => True end
  /\ match max_tokens with Some k => (0 < k)%Z | None => True end.

(** The semantic rules a specification must meet to be loaded: a name and
    a template that are not empty once trimmed, and no declared
    placeholder whose name is empty once trimmed. *)
Definition semantically_valid (specification : PromptSpecification) : Prop :=
  strip (name specification) <> EmptyString
  /\ strip (template specification) <> EmptyString
  /\ forall d, placeholders specification = Some d ->
       Forall (fun item => strip (fst item) <> EmptyString) d.

(** The registry entries of a sequence of specifications, in order. *)
Definition entries (specifications : list PromptSpecification)
  : dict PromptTemplate :=
  map (fun specification =>
         (name specification, {| _specification := specification |}))
      specifications.

(* ===================================================================== *)
(** ** Scenarios *)
(* ===================================================================== *)

Definition specification_of (name template : string)
    (placeholders : option (dict PlaceholderDefinition)) : PromptSpecification :=
  {| name := name; version := None; description := None;
     system_message := None; template := template; parameters := None;
     llm_config := None; placeholders := placeholders;
     output_format := None |}.

(** The template of scenarios A to D: [name] declared a required string,
    [platform] not declared. *)
Definition greeting : PromptTemplate :=
  {| _specification :=
       specification_of "greeting" "Hello {name}! Welcome to {platform}."
         (Some [("name", {| type := TString; required := true |})]) |}.

(** [{name: Alice, platform: PromptSpec}]. *)
Definition replacements_A : gmap string value :=
  <["name" := VStr "Alice"]> (<["platform" := VStr "PromptSpec"]> ∅).

(** [{name: Bob}]. *)
Definition replacements_B : gmap string value :=
  <["name" := VStr "Bob"]> ∅.

(** The greeting with both of its placeholders declared required. *)
Definition greeting_strict : PromptTemplate :=
  {| _specification :=
       specification_of "greeting" "Hello {name}! Welcome to {platform}."
         (Some [("name", {| type := TString; required := true |});
                ("platform", {| type := TString; required := true |})]) |}.

(** A template whose first declared placeholder is an optional number and
    whose second is a required string. *)
Definition inventory : PromptTemplate :=
  {| _specification :=
       specification_of "inventory" "{name} has {count} items."
         (Some [("count", {| type := TNumber; required := false |});
                ("name", {| type := TString; required := true |})]) |}.

(** A template with a flag declared boolean and a size declared number. *)
Definition switches : PromptTemplate :=
  {| _specification :=
       specification_of "switches" "verbose={flag} size={size}"
         (Some [("flag", {| type := TBoolean; required := false |});
                ("size", {| type := TNumber; required := false |})]) |}.

(** A template whose text has an opening brace inside a brace pair. *)
Definition nested : PromptTemplate :=
  {| _specification := specification_of "nested" "{a{b}" None |}.

(** [{name: None}]. *)
Definition replacements_null_name : gmap string value :=
  <["name" := VNone]> ∅.

(** [{count: many}], a string where a number is declared. *)
Definition replacements_bad_count : gmap string value :=
  <["count" := VStr "many"]> ∅.

(** The document of the manager's test, and the document of scenario E. *)
Definition doc_test : string :=
  "prompts:
  - name: test
    template: Hello {name}!
    placeholders:
      name:
        type: string
        required: true
".

Definition doc_duplicate : string :=
  "prompts:
  - name: duplicate
    template: First template
  - name: duplicate
    template: Second template
".

Definition test_specification : PromptSpecification :=
  specification_of "test" "Hello {name}!"
    (Some [("name", {| type := TString; required := true |})]).

Definition first_duplicate : PromptSpecification :=
  specification_of "duplicate" "First template" None.

Definition second_duplicate : PromptSpecification :=
  specification_of "duplicate" "Second template" None.

(** What the YAML parser and the binding make of the two documents above:
    the list under their [prompts] key. *)
Definition parse_known (text : string) : result (list PromptSpecification) :=
  if String.eqb text doc_test then Ok [test_specification]
  else if String.eqb text doc_duplicate then Ok [first_duplicate; second_duplicate]
  else Raise (YAMLError "not one of the two documents").

(** The manager's load with these collaborators. *)
Definition load_known : option string -> M PromptManager unit :=
  load_templates (list PromptSpecification) parse_known
    (fun _ => true) (fun _ _ => Ok true)
    (fun specifications => Ok {| prompts := specifications |}).

Definition bound_known : option string -> option PromptCollection :=
  bound_collection (list PromptSpecification) parse_known
    (fun _ => true) (fun _ _ => Ok true)
    (fun specifications => Ok {| prompts := specifications |}).

(** A manager that has loaded the test document. *)
Definition loaded_manager : PromptManager :=
  snd (load_known (Some doc_test) PromptManager_init).

(* ===================================================================== *)
(** ** Loading from a file *)
(* ===================================================================== *)

(** What a load from a file raises: the manager's own
    [FileNotFoundError], whatever the file system raises while the file is
    read, or what [load_templates] raises. *)
Inductive file_exn (os_error : Type) : Type :=
| FileNotFoundError (msg : string)
| ReadError (e : os_error)
| LoadError (e : exn).
Arguments FileNotFoundError {os_error} msg.
Arguments ReadError {os_error} e.
Arguments LoadError {os_error} e.

Inductive file_outcome (os_error : Type) : Type :=
| Loaded
| Failed (e : file_exn os_error).
Arguments Loaded {os_error}.
Arguments Failed {os_error} e.

(** The body of an [async def] that is not yet run, for any kind of
    body. *)
Inductive Awaitable (T : Type) : Type :=
| Suspended (body : T).
Arguments Suspended {T} body.

Definition run_awaitable {T} (a : Awaitable T) : T :=
  match a with Suspended body => body end.

Section FileLoading.

(** The collaborators of [Section Loading], and the file system:
    [path_exists] is [Path.exists], [read_text] is [Path.read_text] with
    the encoding the source passes. *)
Variable yaml_data : Type.
Variable yaml_safe_load : string -> result yaml_data.
Variable yaml_truthy : yaml_data -> bool.
Variable yaml_contains : string -> yaml_data -> result bool.
Variable model_validate : yaml_data -> result PromptCollection.
Variable os_error : Type.
Variable path_exists : string -> bool.
Variable read_text : string -> os_error + string.

(** The outcome of the call to the text loader, seen from the file
    loader. *)
Definition of_load (out : result unit * PromptManager)
  : file_outcome os_error * PromptManager :=
  match out with
  | (Ok _, self) => (Loaded, self)
  | (Raise e, self) => (Failed (LoadError e), self)
  end.

(** [load_templates_from_file]. *)
Definition load_templates_from_file (file_path : string)
    (self : PromptManager) : file_outcome os_error * PromptManager :=
  if negb (path_exists file_path)
  then (Failed (FileNotFoundError ("Template file not found: " +:+ file_path)),
        self)
  else
    match read_text file_path with
    | inl e => (Failed (ReadError e), self)
    | inr yaml_content =>
        of_load (load_templates yaml_data yaml_safe_load yaml_truthy
                   yaml_contains model_validate (Some yaml_content) self)
    end.

(** [load_templates_from_file_async]. *)
Definition load_templates_from_file_async (file_path : string)
  : Awaitable (PromptManager -> file_outcome os_error * PromptManager) :=
  Suspended (fun self =>
    if negb (path_exists file_path)
    then (Failed (FileNotFoundError ("Template file not found: " +:+ file_path)),
          self)
    else
      match read_text file_path with
      | inl e => (Failed (ReadError e), self)
      | inr yaml_content =>
          of_load (await (load_templates_async yaml_data yaml_safe_load
                            yaml_truthy yaml_contains model_validate
                            (Some yaml_content)) self)
      end).

End FileLoading.

(* ===================================================================== *)
(** ** Further notions *)
(* ===================================================================== *)

(** [k] is a key of the declared placeholder map of [self]. *)
Definition declared (self : PromptTemplate) (k : string) : Prop :=
  exists d def,
    placeholders (_specification self) = Some d /\ In (k, def) d.

(** The text of a placeholder named [n] in a template. *)
Definition braced (n : string) : string :=
  String "{" (n +:+ String "}" EmptyString).

(** A registry as the manager builds it: distinct names, each template
    filed under the name of its specification, and every specification
    meeting the semantic rules. *)
Definition registry_ok (self : PromptManager) : Prop :=
  NoDup (keys (_templates self))
  /\ Forall (fun entry : string * PromptTemplate =>
               fst entry = name (_specification (snd entry))
               /\ semantically_valid (_specification (snd entry)))
            (_templates self).

(** A family of computations none of which changes the state. *)
Definition readonly_all {S A B} (f : A -> M S B) : Prop :=
  forall a s, snd (f a s) = s.

(** The values a declared type lets through, [None] apart: a string
    declaration takes strings and objects of the classes that are neither
    numbers nor booleans, a number declaration takes ints, floats and
    booleans, a boolean declaration takes nothing. *)
Definition accepts (t : PlaceholderType) (v : value) : bool :=
  match t, v with
  | TString, (VStr _ | VOther _) => true
  | TNumber, (VInt _ | VFloat _ | VBool _) => true
  | _, _ => false
  end.

(** Some declared placeholder name is empty once trimmed. *)
Definition blank_placeholder_key (specification : PromptSpecification) : Prop :=
  exists d k def,
    placeholders specification = Some d /\ In (k, def) d
    /\ strip k = EmptyString.

(** [{name: {name}, platform: {platform}}]: each name mapped to its own
    placeholder text. *)
Definition replacements_braced : gmap string value :=
  <["name" := VStr "{name}"]> (<["platform" := VStr "{platform}"]> ∅).

(** A template with an opening brace and no closing one. *)
Definition unclosed : PromptTemplate :=
  {| _specification :=
       specification_of "unclosed" "Dear {name, welcome."
         (Some [("name", {| type := TString; required := false |})]) |}.

(** [{name: Alice, unused: 7}], and the same with the unused key left
    out. *)
Definition replacements_with_unused : gmap string value :=
  <["name" := VStr "Alice"]> (<["unused" := VInt 7]> ∅).

Definition replacements_name_only : gmap string value :=
  <["name" := VStr "Alice"]> ∅.

(** A template of one placeholder and no declaration, and a mapping that
    gives the placeholder the least int of 4301 digits. *)
Definition single : PromptTemplate :=
  {| _specification := specification_of "single" "{a}" None |}.

Definition replacements_oversized : gmap string value :=
  <["a" := VInt int_str_bound]> ∅.

(** [{a{b: True}]. *)
Definition replacements_flag : gmap string value :=
  <["a{b" := VBool true]> ∅.

(** A file system with one file, the test document. *)
Definition one_file_exists (path : string) : bool :=
  String.eqb path "prompts.yaml".

Definition one_file_read (path : string) : unit + string :=
  if String.eqb path "prompts.yaml" then inr doc_test else inl tt.

(* ===================================================================== *)
(** ** The monad *)
(* ===================================================================== *)

Section MonadFacts.
Context {S : Type}.

Lemma readonly_ret {A} (a : A) : readonly (ret a : M S A).
Proof. intros s. reflexivity. Qed.

Lemma readonly_raise {A} (e : exn) : readonly (raise e : M S A).
Proof. intros s. reflexivity. Qed.

Lemma readonly_gets {A} (f : S -> A) : readonly (gets f).
Proof. intros s. reflexivity. Qed.

Lemma readonly_lift {A} (r : result A) : readonly (lift r : M S A).
Proof. intros s. reflexivity. Qed.

Lemma readonly_bind {A B} (m : M S A) (k : A -> M S B) :
  readonly m -> (forall a, readonly (k a)) -> readonly (bind m k).
Proof.
  intros Hm Hk s. unfold bind.
  specialize (Hm s). destruct (m s) as [[a|e] s']; simpl in *; subst.
  - apply Hk.
  - reflexivity.
Qed.

Lemma readonly_for_each {A} (xs : list A) (body : A -> M S unit) :
  (forall x, readonly (body x)) -> readonly (for_each xs body).
Proof.
  intros Hb. induction xs as [|x xs IH]; simpl.
  - apply readonly_ret.
  - apply readonly_bind; auto.
Qed.

Lemma readonly_run {A} (m : M S A) (s : S) :
  readonly m -> m s = (outcome m s, s).
Proof.
  intros H. unfold outcome. specialize (H s).
  destruct (m s) as [r s']; simpl in *. congruence.
Qed.

Lemma bind_ok {A B} (m : M S A) (k : A -> M S B) s a s' :
  m s = (Ok a, s') -> bind m k s = k a s'.
Proof. intros H. unfold bind. rewrite H. reflexivity. Qed.

Lemma bind_raise {A B} (m : M S A) (k : A -> M S B) s e s' :
  m s = (Raise e, s') -> bind m k s = (Raise e, s').
Proof. intros H. unfold bind. rewrite H. reflexivity. Qed.

(** A loop whose body succeeds on every element without touching the
    state succeeds. *)
Lemma for_each_all_ok {A} (xs : list A) (body : A -> M S unit) s :
  Forall (fun x => body x s = (Ok tt, s)) xs ->
  for_each xs body s = (Ok tt, s).
Proof.
  induction 1 as [|x xs Hx _ IH]; simpl.
  - reflexivity.
  - erewrite bind_ok by exact Hx. exact IH.
Qed.

(** A loop stops at the first element its body raises on. *)
Lemma for_each_first_raise {A} (pre post : list A) x (body : A -> M S unit) s e :
  Forall (fun x => body x s = (Ok tt, s)) pre ->
  body x s = (Raise e, s) ->
  for_each (pre ++ x :: post) body s = (Raise e, s).
Proof.
  induction 1 as [|y pre Hy _ IH]; intros Hx; simpl.
  - erewrite bind_raise by exact Hx. reflexivity.
  - erewrite bind_ok by exact Hy. auto.
Qed.

End MonadFacts.


(* ===================================================================== *)
(** ** The placeholder pattern *)
(* ===================================================================== *)

#[local] Arguments Ascii.eqb : simpl never.
#[local] Arguments String.eqb : simpl never.
#[local] Arguments String.append !s1 s2 : simpl nomatch.

Section PlaceholderPattern.
Import Re.

Lemma name_after_split s : s = name_of s +:+ after_name s.
Proof.
  induction s as [|c s IH]; simpl; [reflexivity|].
  destruct (Ascii.eqb "}" c); simpl; [reflexivity|].
  f_equal. exact IH.
Qed.

Lemma name_of_no_close s : has_char "}" (name_of s) = false.
Proof.
  induction s as [|c s IH]; simpl; [reflexivity|].
  destruct (Ascii.eqb "}" c) eqn:E; simpl; [reflexivity|].
  rewrite E. exact IH.
Qed.

Lemma after_name_head s :
  after_name s = EmptyString \/ exists r, after_name s = String "}" r.
Proof.
  induction s as [|c s IH]; simpl; [now left|].
  destruct (Ascii.eqb "}" c) eqn:E; [|exact IH].
  apply Ascii.eqb_eq in E. subst c. right. now exists s.
Qed.

Lemma after_name_length s : String.length (after_name s) <= String.length s.
Proof.
  induction s as [|c s IH]; simpl; [lia|].
  destruct (Ascii.eqb "}" c); simpl; lia.
Qed.

Lemma name_of_app n rest :
  has_char "}" n = false -> name_of (n +:+ String "}" rest) = n.
Proof.
  induction n as [|c n IH]; simpl; intros H; [reflexivity|].
  apply orb_false_iff in H as [H1 H2]. rewrite H1. f_equal. auto.
Qed.

Lemma after_name_app n rest :
  has_char "}" n = false -> after_name (n +:+ String "}" rest) = String "}" rest.
Proof.
  induction n as [|c n IH]; simpl; intros H; [reflexivity|].
  apply orb_false_iff in H as [H1 H2]. rewrite H1. auto.
Qed.

Lemma length_app (a b : string) :
  String.length (a +:+ b) = String.length a + String.length b.
Proof. induction a as [|c a IH]; simpl; congruence. Qed.

Lemma substring_prefix (a b : string) :
  String.substring 0 (String.length a) (a +:+ b) = a.
Proof.
  induction a as [|c a IH]; simpl.
  - destruct b; reflexivity.
  - now rewrite IH.
Qed.

(** What the matcher consumed between a subject and one of its suffixes
    is the prefix that was cut off. *)
Lemma consumed_app (a b : string) : consumed (a +:+ b) b = a.
Proof.
  unfold consumed. rewrite length_app.
  replace (String.length a + String.length b - String.length b)
    with (String.length a) by lia.
  apply substring_prefix.
Qed.

(** The greedy [[^}]+] in front of a continuation that needs a closing
    brace next: backtracking never helps, the continuation runs exactly
    once, at the first closing brace. *)
Lemma plus_notchar_greedy {R} (k : string -> list string -> option R) :
  k EmptyString = (fun _ => None) ->
  (forall c r g, c <> "}"%char -> k (String c r) g = None) ->
  forall s fuel g,
    String.length s < fuel ->
    rmatch fuel (Plus (NotChar "}")) s g k =
      match s with
      | EmptyString => None
      | String c s' =>
          if Ascii.eqb "}" c then None else k (after_name s') g
      end.
Proof.
  intros Hnil Hne s.
  induction s as [|c s IH]; intros fuel g Hfuel.
  - destruct fuel; reflexivity.
  - destruct fuel as [|fuel]; [simpl in Hfuel; lia|].
    cbn [rmatch]. destruct (Ascii.eqb "}" c) eqn:Ec; [reflexivity|].
    simpl in Hfuel.
    rewrite IH by lia.
    destruct s as [|c2 s2]; cbn [after_name].
    + now rewrite Hnil.
    + destruct (Ascii.eqb "}" c2) eqn:Ec2.
      * reflexivity.
      * destruct (k (after_name s2) g) eqn:Ek; [reflexivity|].
        apply Hne. intros ->. discriminate.
Qed.

(** [_PLACEHOLDER_REGEX.match] computed directly. *)
Lemma match_at_placeholder s :
  match_at _PLACEHOLDER_REGEX s =
    match s with
    | String c s0 =>
        if Ascii.eqb "{" c then
          match s0 with
          | String c1 _ =>
              if Ascii.eqb "}" c1 then None
              else match after_name s0 with
                   | String c2 rest =>
                       if Ascii.eqb "}" c2
                       then Some ({| group0 := consumed s rest;
                                     groups := [consumed s0 (after_name s0)] |},
                                  rest)
                       else None
                   | EmptyString => None
                   end
          | EmptyString => None
          end
        else None
    | EmptyString => None
    end.
Proof.
  destruct s as [|c s0]; [reflexivity|].
  unfold match_at, _PLACEHOLDER_REGEX.
  cbn [rmatch]. destruct (Ascii.eqb "{" c) eqn:Ec; [|reflexivity].
  change (String.length (String c s0)) with (S (String.length s0)).
  destruct s0 as [|c1 s1]; [reflexivity|].
  destruct (Ascii.eqb "}" c1) eqn:E1; [reflexivity|].
  rewrite plus_notchar_greedy.
  - cbn [after_name]. rewrite E1.
    destruct s1 as [|c2 s2]; [reflexivity|].
    cbn [after_name].
    destruct (Ascii.eqb "}" c2) eqn:E2; [rewrite E2; reflexivity|].
    destruct (after_name s2) as [|c3 r]; [reflexivity|].
    destruct (Ascii.eqb "}" c3); reflexivity.
  - reflexivity.
  - intros c' r g Hc.
    destruct (Ascii.eqb "}" c') eqn:E; [apply Ascii.eqb_eq in E; congruence|].
    reflexivity.
  - simpl. lia.
Qed.

Lemma append_assoc (a b c : string) : (a +:+ b) +:+ c = a +:+ (b +:+ c).
Proof. induction a as [|x a IH]; simpl; congruence. Qed.

Lemma placeholder_text_split n rest :
  String "{" (n +:+ String "}" rest)
  = String "{" (n +:+ String "}" EmptyString) +:+ rest.
Proof. simpl. f_equal. rewrite append_assoc. reflexivity. Qed.

(** The pattern matches at the start of [s] exactly when [s] begins with
    a placeholder, and the match records its name as group 1. *)
Lemma match_at_placeholder_iff s m rest :
  match_at _PLACEHOLDER_REGEX s = Some (m, rest) <->
  exists n, placeholder_at s n rest /\ m = placeholder_match n.
Proof.
  rewrite match_at_placeholder. split.
  - destruct s as [|c s0]; [discriminate|].
    destruct (Ascii.eqb "{" c) eqn:Ec; [|discriminate].
    apply Ascii.eqb_eq in Ec. subst c.
    destruct s0 as [|c1 s1] eqn:Es0; [discriminate|].
    destruct (Ascii.eqb "}" c1) eqn:E1; [discriminate|].
    rewrite <- Es0.
    destruct (after_name s0) as [|c2 r] eqn:Ea; [discriminate|].
    destruct (Ascii.eqb "}" c2) eqn:E2; [|discriminate].
    apply Ascii.eqb_eq in E2. subst c2.
    intros [= <- <-].
    pose proof (name_after_split s0) as Hs. rewrite Ea in Hs.
    exists (name_of s0). split.
    + split; [congruence|]. split.
      * rewrite Es0. simpl. rewrite E1. discriminate.
      * apply name_of_no_close.
    + unfold placeholder_match. f_equal.
      * rewrite Hs at 1. rewrite placeholder_text_split. apply consumed_app.
      * f_equal. rewrite Hs at 1. apply consumed_app.
  - intros (n & (Hs & Hn & Hc) & ->). subst s.
    rewrite Ascii.eqb_refl.
    destruct n as [|c1 n1]; [congruence|].
    assert (E1 : Ascii.eqb "}" c1 = false).
    { simpl in Hc. now apply orb_false_iff in Hc. }
    cbn [String.append]. rewrite E1.
    change (String c1 (n1 +:+ String "}" rest))
      with (String c1 n1 +:+ String "}" rest).
    rewrite after_name_app by exact Hc.
    rewrite Ascii.eqb_refl. unfold placeholder_match.
    rewrite placeholder_text_split, !consumed_app. reflexivity.
Qed.

(** A placeholder at the start of [s] is followed by strictly less text. *)
Lemma placeholder_at_shorter s n rest :
  placeholder_at s n rest -> String.length rest < String.length s.
Proof.
  intros (-> & _ & _). simpl. rewrite length_app. simpl. lia.
Qed.

(** Where a placeholder starts, its name and what follows are fixed. *)
Lemma placeholder_at_unique s n1 r1 n2 r2 :
  placeholder_at s n1 r1 -> placeholder_at s n2 r2 -> n1 = n2 /\ r1 = r2.
Proof.
  intros H1 H2.
  assert (E1 : match_at _PLACEHOLDER_REGEX s = Some (placeholder_match n1, r1))
    by (apply match_at_placeholder_iff; eauto).
  assert (E2 : match_at _PLACEHOLDER_REGEX s = Some (placeholder_match n2, r2))
    by (apply match_at_placeholder_iff; eauto).
  rewrite E1 in E2. now inversion E2.
Qed.

Lemma rmatch_Seq {R} fuel a b s g (k : string -> list string -> option R) :
  rmatch fuel (Seq a b) s g k
  = rmatch fuel a s g (fun s1 g1 => rmatch fuel b s1 g1 k).
Proof. destruct fuel; reflexivity. Qed.

Lemma rmatch_Group {R} fuel a s g (k : string -> list string -> option R) :
  rmatch fuel (Group a) s g k
  = rmatch fuel a s g (fun s1 g1 => k s1 (g1 ++ [consumed s s1])).
Proof. destruct fuel; reflexivity. Qed.

Lemma rmatch_Plus {R} fuel a s g (k : string -> list string -> option R) :
  rmatch (S fuel) (Plus a) s g k
  = rmatch (S fuel) a s g (fun s1 g1 =>
      match rmatch fuel (Plus a) s1 g1 k with
      | Some out => Some out
      | None => k s1 g1
      end).
Proof. reflexivity. Qed.

(** A match consumes at least one character: the continuation that gave
    the answer ran on a strictly shorter text. *)
Lemma rmatch_consumes {R} fuel :
  forall r s g (k : string -> list string -> option R) out,
    rmatch fuel r s g k = Some out ->
    exists s' g', String.length s' < String.length s /\ k s' g' = Some out.
Proof.
  induction fuel as [|fuel IHfuel]; intros r;
    induction r as [c|c|a IHa b IHb|a IHa|a IHa]; intros s g k out H.
  all: try (destruct s as [|c' s']; [discriminate|]; cbn in H;
            destruct (Ascii.eqb c c'); try discriminate;
            exists s', g; split; [simpl; lia|exact H]).
  all: try (rewrite rmatch_Seq in H; apply IHa in H as (s1 & g1 & Hlt & H);
            apply IHb in H as (s2 & g2 & Hlt2 & H);
            exists s2, g2; split; [lia|exact H]).
  all: try (rewrite rmatch_Group in H; apply IHa in H as (s1 & g1 & Hlt & H);
            eexists _, _; split; [exact Hlt|exact H]).
  - discriminate.
  - rewrite rmatch_Plus in H. apply IHa in H as (s1 & g1 & Hlt & H).
    destruct (rmatch fuel (Plus a) s1 g1 k) as [out'|] eqn:E.
    + injection H as ->. apply IHfuel in E as (s2 & g2 & Hlt2 & E).
      exists s2, g2. split; [lia|exact E].
    + exists s1, g1. split; [exact Hlt|exact H].
Qed.

Lemma match_at_shorter r s m rest :
  match_at r s = Some (m, rest) -> String.length rest < String.length s.
Proof.
  unfold match_at. intros H.
  apply rmatch_consumes in H as (s' & g' & Hlt & [= _ <-]). exact Hlt.
Qed.

(** The scan does not depend on spare fuel. *)
Lemma scan_fuel_enough r fuel1 : forall s fuel2,
  String.length s <= fuel1 -> String.length s <= fuel2 ->
  scan_fuel fuel1 r s = scan_fuel fuel2 r s.
Proof.
  induction fuel1 as [|fuel1 IH]; intros s fuel2 H1 H2.
  - destruct s; [|simpl in H1; lia]. destruct fuel2; reflexivity.
  - destruct s as [|c s']; [destruct fuel2; reflexivity|].
    destruct fuel2 as [|fuel2]; [simpl in H2; lia|].
    simpl in H1, H2. cbn [scan_fuel].
    destruct (match_at r (String c s')) as [[m rest]|] eqn:E.
    + apply match_at_shorter in E. simpl in E. f_equal. apply IH; lia.
    + f_equal. apply IH; lia.
Qed.

(** One step of the scan. *)
Lemma scan_step r c s :
  scan r (String c s) =
    match match_at r (String c s) with
    | Some (m, rest) => Matched m :: scan r rest
    | None => Skipped c :: scan r s
    end.
Proof.
  unfold scan. cbn [String.length scan_fuel].
  destruct (match_at r (String c s)) as [[m rest]|] eqn:E; [|reflexivity].
  apply match_at_shorter in E. simpl in E.
  f_equal. apply scan_fuel_enough; lia.
Qed.

Lemma findall_placeholder_step c s :
  findall _PLACEHOLDER_REGEX (String c s) =
    match match_at _PLACEHOLDER_REGEX (String c s) with
    | Some (m, rest) => group m 1 :: findall _PLACEHOLDER_REGEX rest
    | None => findall _PLACEHOLDER_REGEX s
    end.
Proof.
  unfold findall. rewrite scan_step.
  destruct (match_at _PLACEHOLDER_REGEX (String c s)) as [[m rest]|];
    reflexivity.
Qed.

(** [findall] returns the names of the occurrences, and nothing else. *)
Lemma findall_occurs n : forall s,
  In n (findall _PLACEHOLDER_REGEX s) <-> occurs n s.
Proof.
  intros s. split.
  - remember (String.length s) as len eqn:Hlen.
    revert s Hlen. induction len as [len IH] using lt_wf_ind.
    intros [|c s] Hlen Hin; [destruct Hin|].
    rewrite findall_placeholder_step in Hin.
    destruct (match_at _PLACEHOLDER_REGEX (String c s)) as [[m rest]|] eqn:E.
    + apply match_at_placeholder_iff in E as (n' & Hat & ->).
      destruct Hin as [<-|Hin].
      * eapply occurs_here. exact Hat.
      * eapply occurs_after; [exact Hat|].
        eapply IH; [|reflexivity|exact Hin].
        subst len. now apply placeholder_at_shorter in Hat.
    + apply occurs_later.
      * intros n' rest Hat.
        assert (match_at _PLACEHOLDER_REGEX (String c s)
                = Some (placeholder_match n', rest))
          by (apply match_at_placeholder_iff; eauto).
        congruence.
      * eapply IH; [|reflexivity|exact Hin]. subst len. simpl. lia.
  - induction 1 as [s rest Hat|s n' rest Hat _ IH|c s Hno _ IH].
    + assert (E : match_at _PLACEHOLDER_REGEX s = Some (placeholder_match n, rest))
        by (apply match_at_placeholder_iff; eauto).
      destruct s as [|c s]; [destruct Hat; discriminate|].
      rewrite findall_placeholder_step, E. now left.
    + assert (E : match_at _PLACEHOLDER_REGEX s = Some (placeholder_match n', rest))
        by (apply match_at_placeholder_iff; eauto).
      destruct s as [|c s]; [destruct Hat; discriminate|].
      rewrite findall_placeholder_step, E. now right.
    + rewrite findall_placeholder_step.
      destruct (match_at _PLACEHOLDER_REGEX (String c s)) as [[m rest]|] eqn:E;
        [|exact IH].
      apply match_at_placeholder_iff in E as (n' & Hat & _).
      now apply Hno in Hat.
Qed.

End PlaceholderPattern.

(* ===================================================================== *)
(** ** The template engine *)
(* ===================================================================== *)

Ltac readonly_step :=
  first
    [ apply readonly_ret | apply readonly_raise | apply readonly_gets
    | apply readonly_lift
    | apply readonly_bind; [|intros ?]
    | apply readonly_for_each; intros ?
    | match goal with
      | |- readonly (if ?b then _ else _) => destruct b
      | |- readonly (match ?x with _ => _ end) => destruct x
      | |- readonly (let (_, _) := ?x in _) => destruct x
      end ].

Ltac readonly := repeat readonly_step.

Section Engine.
Variable replacements : gmap string value.

Lemma readonly_validate_type n v t : readonly (_validate_type n v t).
Proof. unfold _validate_type. readonly. Qed.

Lemma readonly_validate_item item : readonly (validate_item replacements item).
Proof.
  unfold validate_item. readonly; apply readonly_validate_type.
Qed.

Lemma readonly_validate_placeholders :
  readonly (_validate_placeholders replacements).
Proof.
  unfold _validate_placeholders. readonly. apply readonly_validate_item.
Qed.

Lemma readonly_replace_placeholder m :
  readonly (replace_placeholder replacements m).
Proof. unfold replace_placeholder. readonly. Qed.

Lemma readonly_sub_pieces {S} (repl : Re.match_obj -> M S string) ps :
  (forall m, readonly (repl m)) -> readonly (Re.sub_pieces repl ps).
Proof.
  intros H. induction ps as [|[c|m] ps IH]; simpl; readonly; auto.
Qed.

(** An item whose name the mapping lacks fails when it is required. *)
Lemma validate_item_missing n d self :
  required d = true -> replacements !! n = None ->
  validate_item replacements (n, d) self
  = (Raise (MissingPlaceholderException n), self).
Proof.
  intros Hr Hn. unfold validate_item, has_key. rewrite Hr, Hn. reflexivity.
Qed.

(** An item whose name the mapping gives [None] passes, whatever the item
    declares. *)
Lemma validate_item_null n d self :
  replacements !! n = Some VNone ->
  validate_item replacements (n, d) self = (Ok tt, self).
Proof.
  intros Hn. unfold validate_item, has_key. rewrite Hn.
  destruct (required d); reflexivity.
Qed.

(** The two ways an item fails. *)
Lemma validate_item_raises n d self e self' :
  validate_item replacements (n, d) self = (Raise e, self') ->
  (e = MissingPlaceholderException n
   /\ required d = true /\ replacements !! n = None)
  \/ (exists v, replacements !! n = Some v /\ v <> VNone
      /\ e = PlaceholderTypeException n (type_name (type d)) (_get_value_type v)).
Proof.
  unfold validate_item, has_key.
  destruct (replacements !! n) as [v|] eqn:Hn.
  - rewrite andb_false_r. intros H. right. exists v.
    unfold bind, ret in H. cbn in H.
    destruct v; try discriminate; unfold _validate_type in H;
      match type of H with
      | (if ?b then _ else _) _ = _ => destruct b
      end; inversion H; subst; repeat split; congruence.
  - destruct (required d); cbn; intros H; inversion H; subst. now left.
Qed.

(** An item that passes and is required has its name in the mapping. *)
Lemma validate_item_ok_required n d self :
  outcome (validate_item replacements (n, d)) self = Ok tt ->
  required d = true -> has_key replacements n = true.
Proof.
  unfold outcome. intros H Hr.
  destruct (has_key replacements n) eqn:Hk; [reflexivity|].
  unfold has_key in Hk. destruct (replacements !! n) eqn:Hn; [discriminate|].
  rewrite validate_item_missing in H by assumption. discriminate.
Qed.

Lemma get_In {V} (d : dict V) k v : get d k = Some v -> In (k, v) d.
Proof.
  induction d as [|[k' v'] d IH]; simpl; [discriminate|].
  destruct (String.eqb k' k) eqn:E.
  - apply String.eqb_eq in E. intros [= ->]. left. congruence.
  - auto.
Qed.

Lemma validate_placeholders_ok self :
  validated replacements self ->
  _validate_placeholders replacements self = (Ok tt, self).
Proof.
  unfold validated, _validate_placeholders, bind, gets.
  destruct (placeholders (_specification self)) as [d|]; [|reflexivity].
  intros H. destruct (truthy d); [|reflexivity].
  apply for_each_all_ok. unfold items.
  eapply Forall_impl; [exact H|]. intros item Hi. cbn beta in Hi.
  rewrite (readonly_run _ self (readonly_validate_item item)). now rewrite Hi.
Qed.

(** Once validation has passed, the closure does what [fill] says: its
    own test for a required placeholder cannot fire. *)
Lemma replace_placeholder_fill self m :
  validated replacements self ->
  replace_placeholder replacements m self
  = (fill replacements (Re.Matched m), self).
Proof.
  intros Hv. unfold replace_placeholder, fill, replacement_text, has_key.
  destruct (replacements !! Re.group m 1) as [v|] eqn:Hk.
  - destruct v; reflexivity.
  - unfold bind, gets. unfold validated in Hv.
    destruct (placeholders (_specification self)) as [d|]; [|reflexivity].
    destruct (truthy d); [|reflexivity].
    destruct (get d (Re.group m 1)) as [def|] eqn:Hg; [|reflexivity].
    destruct (required def) eqn:Hr; [|reflexivity].
    apply get_In, list_elem_of_In in Hg. rewrite Forall_forall in Hv.
    apply Hv in Hg. apply validate_item_ok_required in Hg; [|assumption].
    unfold has_key in Hg. rewrite Hk in Hg. discriminate.
Qed.

Lemma sub_pieces_fill {S} (repl : Re.match_obj -> M S string) ps s :
  (forall m, repl m s = (fill replacements (Re.Matched m), s)) ->
  Re.sub_pieces repl ps s = (fill_all replacements ps, s).
Proof.
  intros H. induction ps as [|[c|m] ps IH]; cbn [Re.sub_pieces fill_all].
  - reflexivity.
  - cbn [fill]. unfold bind. rewrite IH.
    destruct (fill_all replacements ps); reflexivity.
  - unfold bind. rewrite H.
    destruct (fill replacements (Re.Matched m)) as [t|e]; [|reflexivity].
    rewrite IH. destruct (fill_all replacements ps); reflexivity.
Qed.

End Engine.

Section Rendering.
Variable replacements : gmap string value.

(** A loop with a read-only body either passes every element, or raises
    what its body raises on the first element that fails. *)
Lemma for_each_cases {S A} (xs : list A) (body : A -> M S unit) s :
  (forall x, readonly (body x)) ->
  (Forall (fun x => outcome (body x) s = Ok tt) xs
   /\ for_each xs body s = (Ok tt, s))
  \/ (exists pre x post e,
        xs = pre ++ x :: post
        /\ Forall (fun x => outcome (body x) s = Ok tt) pre
        /\ body x s = (Raise e, s)
        /\ for_each xs body s = (Raise e, s)).
Proof.
  intros Hro. induction xs as [|x xs IH].
  - left. split; [constructor|reflexivity].
  - pose proof (readonly_run _ s (Hro x)) as Hx.
    destruct (outcome (body x) s) as [[]|e] eqn:Hout.
    + destruct IH as [[Hall Hok]|(pre & y & post & e & -> & Hpre & Hy & Hraise)].
      * left. split; [now constructor|].
        simpl. erewrite bind_ok by exact Hx. exact Hok.
      * right. exists (x :: pre), y, post, e. repeat split; auto.
        simpl. erewrite bind_ok by exact Hx. exact Hraise.
    + right. exists [], x, xs, e. repeat split; auto.
      simpl. erewrite bind_raise by exact Hx. reflexivity.
Qed.

(** Once validation has passed, rendering is the filling of the pieces. *)
Lemma generate_prompt_validated self :
  validated replacements self ->
  generate_prompt (Some replacements) self = (rendered replacements self, self).
Proof.
  intros Hv. unfold generate_prompt, bind, gets.
  assert (Hval : (if opt_truthy (placeholders (_specification self))
                  then _validate_placeholders replacements
                  else ret tt) self = (Ok tt, self)).
  { destruct (opt_truthy _); [|reflexivity].
    now apply validate_placeholders_ok. }
  rewrite Hval. unfold Re.sub.
  apply sub_pieces_fill. intros m. now apply replace_placeholder_fill.
Qed.

(** Rendering either passes validation and gives the result of filling
    the pieces, or raises the error of the first declared placeholder that
    fails validation. *)
Lemma generate_prompt_cases self :
  (validated replacements self
   /\ generate_prompt (Some replacements) self = (rendered replacements self, self))
  \/ (exists d pre item post e,
        placeholders (_specification self) = Some d
        /\ d = pre ++ item :: post
        /\ Forall (fun i => outcome (validate_item replacements i) self = Ok tt) pre
        /\ validate_item replacements item self = (Raise e, self)
        /\ generate_prompt (Some replacements) self = (Raise e, self)).
Proof.
  destruct (placeholders (_specification self)) as [d|] eqn:Hd.
  - destruct (for_each_cases d (validate_item replacements) self
                (readonly_validate_item replacements))
      as [[Hall _]|(pre & item & post & e & -> & Hpre & Hitem & Hraise)].
    + left. assert (Hv : validated replacements self)
        by (unfold validated; now rewrite Hd).
      split; [exact Hv|now apply generate_prompt_validated].
    + right. exists (pre ++ item :: post), pre, item, post, e.
      repeat split; auto.
      unfold generate_prompt, bind, gets. cbn beta. rewrite Hd.
      match goal with
      | |- context [opt_truthy ?x] =>
          replace (opt_truthy x) with true by (destruct pre; reflexivity)
      end.
      unfold _validate_placeholders, bind, gets. cbn beta. rewrite Hd.
      match goal with
      | |- context [truthy ?x] =>
          replace (truthy x) with true by (destruct pre; reflexivity)
      end.
      unfold items. rewrite Hraise. reflexivity.
  - left. assert (Hv : validated replacements self)
      by (unfold validated; now rewrite Hd).
    split; [exact Hv|now apply generate_prompt_validated].
Qed.

End Rendering.

Lemma readonly_generate_prompt replacements :
  readonly (generate_prompt replacements).
Proof.
  unfold generate_prompt.
  destruct replacements as [r|]; [|apply readonly_raise].
  apply readonly_bind; [apply readonly_gets|intros declared].
  apply readonly_bind.
  - destruct (opt_truthy declared);
      [apply readonly_validate_placeholders|apply readonly_ret].
  - intros _. apply readonly_bind; [apply readonly_gets|intros text].
    unfold Re.sub. apply readonly_sub_pieces.
    apply readonly_replace_placeholder.
Qed.

Section Pieces.
Import Re.

(** The pieces of a scanned template, put back together, are the
    template. *)
Lemma scan_source s : join (map source (scan _PLACEHOLDER_REGEX s)) = s.
Proof.
  remember (String.length s) as len eqn:Hlen.
  revert s Hlen. induction len as [len IH] using lt_wf_ind.
  intros [|c s] Hlen; [reflexivity|].
  rewrite scan_step.
  destruct (match_at _PLACEHOLDER_REGEX (String c s)) as [[m rest]|] eqn:E.
  - apply match_at_placeholder_iff in E as (n & Hat & ->).
    pose proof (placeholder_at_shorter _ _ _ Hat) as Hlt.
    destruct Hat as (Hs & _ & _). rewrite Hs.
    cbn [map join source group0 placeholder_match].
    rewrite (IH (String.length rest)); [|subst len; exact Hlt|reflexivity].
    symmetry. apply placeholder_text_split.
  - cbn [map join source]. rewrite (IH (String.length s)).
    + reflexivity.
    + subst len. simpl. lia.
    + reflexivity.
Qed.

(** Every match the scan reports is a placeholder. *)
Lemma scan_pieces s : Forall placeholder_piece (scan _PLACEHOLDER_REGEX s).
Proof.
  remember (String.length s) as len eqn:Hlen.
  revert s Hlen. induction len as [len IH] using lt_wf_ind.
  intros [|c s] Hlen; [constructor|].
  rewrite scan_step.
  destruct (match_at _PLACEHOLDER_REGEX (String c s)) as [[m rest]|] eqn:E.
  - apply match_at_placeholder_iff in E as (n & Hat & ->).
    constructor.
    + exists n. destruct Hat as (_ & Hn & Hc). auto.
    + apply (IH (String.length rest)); [|reflexivity].
      subst len. now apply placeholder_at_shorter in Hat.
  - constructor; [exact I|].
    apply (IH (String.length s)); [|reflexivity]. subst len. simpl. lia.
Qed.

End Pieces.

Section RenderingFailures.
Variable replacements : gmap string value.

(** Rendering raises the error of a declared placeholder that fails
    validation after all the ones declared before it have passed. *)
Lemma generate_prompt_first_failure self pre item post e :
  placeholders (_specification self) = Some (pre ++ item :: post) ->
  Forall (fun i => outcome (validate_item replacements i) self = Ok tt) pre ->
  validate_item replacements item self = (Raise e, self) ->
  generate_prompt (Some replacements) self = (Raise e, self).
Proof.
  intros Hd Hpre Hitem.
  destruct (generate_prompt_cases replacements self)
    as [[Hv _]|(d & pre' & item' & post' & e' & Hd' & -> & Hpre' & Hitem' & Hr)].
  - unfold validated in Hv. rewrite Hd in Hv.
    apply Forall_app in Hv as [_ Hv]. apply Forall_cons in Hv as [Hv _].
    unfold outcome in Hv. rewrite Hitem in Hv. discriminate.
  - rewrite Hr. rewrite Hd in Hd'. injection Hd' as Hd'.
    clear Hr Hd. revert pre' Hd' Hpre'.
    induction Hpre as [|x pre Hx _ IH]; intros [|y pre'] Heq Hpre';
      simpl in Heq; injection Heq as -> Heq.
    + congruence.
    + apply Forall_cons in Hpre' as [Hy _].
      unfold outcome in Hy. rewrite Hitem in Hy. discriminate.
    + unfold outcome in Hx. rewrite Hitem' in Hx. discriminate.
    + apply Forall_cons in Hpre' as [_ Hpre']. eauto.
Qed.

(** An error rendering raises is the error of one of the declared
    placeholders, or, validation passed, the error of the filling. *)
Lemma generate_prompt_raises self e self' :
  generate_prompt (Some replacements) self = (Raise e, self') ->
  (exists d item,
     placeholders (_specification self) = Some d /\ In item d
     /\ validate_item replacements item self = (Raise e, self))
  \/ (validated replacements self /\ rendered replacements self = Raise e).
Proof.
  intros H.
  destruct (generate_prompt_cases replacements self)
    as [[Hv Hok]|(d & pre & item & post & e' & Hd & -> & _ & Hitem & Hr)].
  - right. split; [exact Hv|]. congruence.
  - left. exists (pre ++ item :: post), item. split; [exact Hd|]. split.
    + apply in_or_app. right. now left.
    + congruence.
Qed.

End RenderingFailures.

Section Substitution.
Variable replacements : gmap string value.

(** Filling the pieces of the scan is the substitution of the text. *)
Lemma substitution_scan s :
  substitution replacements s
    (fill_all replacements (Re.scan _PLACEHOLDER_REGEX s)).
Proof.
  remember (String.length s) as len eqn:Hlen.
  revert s Hlen. induction len as [len IH] using lt_wf_ind.
  intros [|c s] Hlen; [constructor|].
  rewrite scan_step.
  destruct (Re.match_at _PLACEHOLDER_REGEX (String c s)) as [[m rest]|] eqn:E.
  - apply match_at_placeholder_iff in E as (n & Hat & ->).
    cbn [fill_all fill]. change (Re.group (placeholder_match n) 1) with n.
    destruct (replacement_text replacements n) as [t|e] eqn:Ht.
    + eapply substitution_fill; [exact Hat|exact Ht|].
      apply (IH (String.length rest)); [|reflexivity].
      subst len. now apply placeholder_at_shorter in Hat.
    + eapply substitution_raise; [exact Hat|exact Ht].
  - cbn [fill_all fill]. apply substitution_char.
    + intros n rest Hat.
      assert (Re.match_at _PLACEHOLDER_REGEX (String c s)
              = Some (placeholder_match n, rest))
        by (apply match_at_placeholder_iff; eauto).
      congruence.
    + apply (IH (String.length s)); [|reflexivity]. subst len. simpl. lia.
Qed.

(** A text has one substitution. *)
Lemma substitution_functional s res1 res2 :
  substitution replacements s res1 ->
  substitution replacements s res2 -> res1 = res2.
Proof.
  intros H1. revert res2.
  induction H1 as [|s n rest e Hat Ht|s n rest t res Hat Ht _ IH|c s res Hno _ IH];
    intros res2 H2; inversion H2; subst;
    try (exfalso;
         match goal with
         | H : placeholder_at EmptyString _ _ |- _ =>
             destruct H as [H _]; discriminate
         end);
    try (exfalso;
         match goal with
         | Hn : forall n rest, ~ placeholder_at ?x n rest,
           H : placeholder_at ?x _ _ |- _ => exact (Hn _ _ H)
         end);
    try match goal with
        | Ha : placeholder_at ?x _ _, Hb : placeholder_at ?x _ _ |- _ =>
            destruct (placeholder_at_unique _ _ _ _ _ Ha Hb) as [<- <-]
        end;
    try congruence.
  - match goal with
    | Ha : replacement_text _ ?k = Ok ?a, Hb : replacement_text _ ?k = Ok ?b
      |- _ => assert (a = b) by congruence; subst
    end.
    f_equal. now apply IH.
  - f_equal. now apply IH.
Qed.

Lemma replacement_text_raise n e :
  replacement_text replacements n = Raise e ->
  exists v, replacements !! n = Some v /\ v <> VNone /\ py_str v = Raise e.
Proof.
  unfold replacement_text.
  destruct (replacements !! n) as [v|]; [|discriminate].
  intros H. exists v. split; [reflexivity|].
  destruct v; try discriminate; split; try exact H; discriminate.
Qed.

Lemma replacement_text_ok n :
  (forall v, replacements !! n = Some v -> exists t, py_str v = Ok t) ->
  exists t, replacement_text replacements n = Ok t.
Proof.
  unfold replacement_text. intros H.
  destruct (replacements !! n) as [v|]; [|eauto].
  destruct (H v eq_refl) as [t Ht]. destruct v; eauto.
Qed.

Lemma prepend_raise t res e : prepend t res = Raise e -> res = Raise e.
Proof. destruct res; simpl; congruence. Qed.

(** An exception of the substitution is the exception of [str] on the
    value of a name that occurs. *)
Lemma substitution_raise_origin s res :
  substitution replacements s res ->
  forall e, res = Raise e ->
  exists n v,
    occurs n s /\ replacements !! n = Some v /\ v <> VNone
    /\ py_str v = Raise e.
Proof.
  induction 1 as [|s n rest e' Hat Ht|s n rest t res Hat Ht _ IH|c s res Hno _ IH];
    intros e He.
  - discriminate.
  - injection He as ->.
    destruct (replacement_text_raise n e Ht) as (v & Hv & Hnone & Hstr).
    exists n, v. split; [eapply occurs_here; exact Hat|auto].
  - apply prepend_raise in He.
    destruct (IH e He) as (n' & v & Hocc & Hrest).
    exists n', v. split; [eapply occurs_after; eauto|exact Hrest].
  - apply prepend_raise in He.
    destruct (IH e He) as (n' & v & Hocc & Hrest).
    exists n', v. split; [now apply occurs_later|exact Hrest].
Qed.

(** When [str] succeeds on the value of every name that occurs, the
    substitution gives a text. *)
Lemma substitution_succeeds s res :
  substitution replacements s res ->
  (forall n v, occurs n s -> replacements !! n = Some v ->
               exists t, py_str v = Ok t) ->
  exists out, res = Ok out.
Proof.
  induction 1 as [|s n rest e' Hat Ht|s n rest t res Hat Ht _ IH|c s res Hno _ IH];
    intros Hall.
  - eauto.
  - destruct (replacement_text_ok n) as [t' Ht'].
    + intros v Hv. eapply Hall; [eapply occurs_here; exact Hat|exact Hv].
    + congruence.
  - destruct IH as [out ->]; [|simpl; eauto].
    intros n' v Hocc Hv.
    apply (Hall n' v); [eapply occurs_after; eauto|exact Hv].
  - destruct IH as [out ->]; [|simpl; eauto].
    intros n' v Hocc Hv.
    apply (Hall n' v); [apply occurs_later; [exact Hno|exact Hocc]|exact Hv].
Qed.

(** Filling succeeds with the pieces' own text when each piece fills to
    its own text. *)
Lemma fill_all_sources ps :
  (forall p, In p ps -> fill replacements p = Ok (source p)) ->
  fill_all replacements ps = Ok (join (map source ps)).
Proof.
  induction ps as [|p ps IH]; intros H; [reflexivity|].
  cbn [fill_all map join]. rewrite (H p) by now left.
  rewrite IH; [reflexivity|]. intros q Hq. apply H. now right.
Qed.

End Substitution.

(* ===================================================================== *)
(** ** Properties of the template engine *)
(* ===================================================================== *)

(** C2, evaluated on the code.  [_get_value_type] tests for [int] and
    [float] before it tests for [bool], and a boolean is an instance of
    [int]: a boolean is classified "number", the branch that answers
    "boolean" is never taken.  A boolean supplied for a placeholder declared
    boolean is rejected with expected type "boolean" and actual type
    "number", and a boolean supplied for a placeholder declared number is
    accepted and rendered. *)
Theorem boolean_classified_as_number :
  (forall b, _get_value_type (VBool b) = "number")
  /\ (forall v, _get_value_type v <> "boolean")
  /\ generate_prompt (Some (<["flag" := VBool true]> ∅)) switches
     = (Raise (PlaceholderTypeException "flag" "boolean" "number"), switches)
  /\ generate_prompt (Some (<["size" := VBool true]> ∅)) switches
     = (Ok "verbose= size=True", switches).
Proof.
  split; [intros []; reflexivity|].
  split; [intros []; vm_compute; discriminate|].
  split; vm_compute; reflexivity.
Qed.

(** C3, amended.  When a placeholder [n] is declared required and the
    mapping gives it the value [None]: the check on [n] passes whatever
    type [n] declares; the replacement of [n] is the empty text, at every
    occurrence; an error rendering raises is never due to [n], it is the
    validation error of another declared placeholder or the error of
    [str] on the value of another name that occurs.  When the other
    declared placeholders pass validation, the result of rendering is the
    substitution of the template, which is a text as soon as [str]
    succeeds on the value of every name that occurs. *)
Theorem null_satisfies_required self (replacements : gmap string value) d n def :
  placeholders (_specification self) = Some d ->
  get d n = Some def ->
  required def = true ->
  replacements !! n = Some VNone ->
  validate_item replacements (n, def) self = (Ok tt, self)
  /\ replacement_text replacements n = Ok EmptyString
  /\ (forall m, Re.group m 1 = n ->
        replace_placeholder replacements m self = (Ok EmptyString, self))
  /\ (forall e self',
        generate_prompt (Some replacements) self = (Raise e, self') ->
        (exists item,
           In item d /\ fst item <> n
           /\ validate_item replacements item self = (Raise e, self))
        \/ (exists k v,
              occurs k (template (_specification self)) /\ k <> n
              /\ replacements !! k = Some v /\ py_str v = Raise e))
  /\ ((forall item, In item d -> fst item <> n ->
         outcome (validate_item replacements item) self = Ok tt) ->
      exists res,
        generate_prompt (Some replacements) self = (res, self)
        /\ substitution replacements (template (_specification self)) res
        /\ ((forall k v,
               occurs k (template (_specification self)) ->
               replacements !! k = Some v -> exists t, py_str v = Ok t) ->
            exists out, res = Ok out)).
Proof.
  intros Hd Hget Hreq Hn. split; [now apply validate_item_null|].
  split; [unfold replacement_text; now rewrite Hn|].
  split.
  { intros m <-. unfold replace_placeholder, has_key. now rewrite Hn. }
  split.
  { intros e self' Hr.
    apply generate_prompt_raises
      in Hr as [(d' & [k def'] & Hd' & Hin & Hitem)|[Hv Hren]].
    - left. exists (k, def'). rewrite Hd in Hd'. injection Hd' as <-.
      split; [exact Hin|]. split; [|exact Hitem].
      cbn [fst]. intros ->.
      rewrite (validate_item_null replacements n def' self Hn) in Hitem.
      discriminate.
    - right. unfold rendered in Hren.
      pose proof (substitution_scan replacements
                    (template (_specification self))) as Hsub.
      destruct (substitution_raise_origin replacements _ _ Hsub e Hren)
        as (k & v & Hocc & Hk & Hnone & Hstr).
      exists k, v. repeat split; auto. intros ->. congruence. }
  intros Hothers. exists (rendered replacements self). split.
  { apply generate_prompt_validated.
    unfold validated. rewrite Hd. apply List.Forall_forall.
    intros [k def'] Hin.
    destruct (String.eqb k n) eqn:Ek.
    - apply String.eqb_eq in Ek. subst k. unfold outcome.
      now rewrite validate_item_null.
    - apply String.eqb_neq in Ek. now apply Hothers. }
  split; [apply substitution_scan|].
  intros Hall. eapply substitution_succeeds; [apply substitution_scan|exact Hall].
Qed.

(** C4, amended.  [get_placeholder_names] returns, without repetition, the
    names of the placeholder occurrences of the template text, an
    occurrence being an opening brace, a non-empty name without closing
    brace (opening braces are allowed in it), and a closing brace, found by
    the left-to-right scan that resumes after each occurrence.  The
    declared placeholders play no part. *)
Theorem get_placeholder_names_occurrences self :
  exists names,
    get_placeholder_names self = (Ok names, self)
    /\ NoDup names
    /\ (forall n, In n names <-> occurs n (template (_specification self)))
    /\ (forall other,
          template (_specification other) = template (_specification self) ->
          outcome get_placeholder_names other = Ok names).
Proof.
  eexists. split; [reflexivity|]. split; [|split].
  - apply NoDup_elements.
  - intros n. rewrite <- findall_occurs, <- !list_elem_of_In.
    rewrite elem_of_elements. apply elem_of_list_to_set.
  - intros other Hsame. unfold outcome, get_placeholder_names, bind, gets, ret.
    cbn. now rewrite Hsame.
Qed.

(** The amended C4 at the greeting: the names found do not change when
    [platform] is declared as well. *)
Lemma get_placeholder_names_occurrences_witness :
  exists names,
    get_placeholder_names greeting = (Ok names, greeting)
    /\ outcome get_placeholder_names greeting_strict = Ok names.
Proof.
  destruct (get_placeholder_names_occurrences greeting)
    as (names & Hrun & _ & _ & Hother).
  exists names. split; [exact Hrun|]. apply Hother. reflexivity.
Defined.

(** C5.  Scenarios A and B: the greeting rendered with both names
    supplied, and with the undeclared [platform] left out. *)
Theorem greeting_scenarios :
  generate_prompt (Some replacements_A) greeting
  = (Ok "Hello Alice! Welcome to PromptSpec.", greeting)
  /\ generate_prompt (Some replacements_B) greeting
     = (Ok "Hello Bob! Welcome to .", greeting).
Proof. split; vm_compute; reflexivity. Qed.

(** C6, amended.  When a placeholder [n] is declared required and is not a
    key of the mapping, rendering returns no text: it raises the error of
    the first declared placeholder, in declaration order, that fails
    validation, and this is the missing-placeholder error carrying [n]
    when the placeholders declared before [n] pass. *)
Theorem required_missing_fails self (replacements : gmap string value) d n def :
  placeholders (_specification self) = Some d ->
  get d n = Some def ->
  required def = true ->
  replacements !! n = None ->
  (exists pre item post e,
      d = pre ++ item :: post
      /\ Forall (fun i => outcome (validate_item replacements i) self = Ok tt) pre
      /\ validate_item replacements item self = (Raise e, self)
      /\ generate_prompt (Some replacements) self = (Raise e, self))
  /\ (forall pre post,
        d = pre ++ (n, def) :: post ->
        Forall (fun i => outcome (validate_item replacements i) self = Ok tt) pre ->
        generate_prompt (Some replacements) self
        = (Raise (MissingPlaceholderException n), self)).
Proof.
  intros Hd Hget Hreq Hn. split.
  - destruct (generate_prompt_cases replacements self)
      as [[Hv _]|(d' & pre & item & post & e & Hd' & -> & Hpre & Hitem & Hr)].
    + unfold validated in Hv. rewrite Hd in Hv.
      apply get_In in Hget. rewrite List.Forall_forall in Hv.
      apply Hv in Hget. unfold outcome in Hget.
      rewrite validate_item_missing in Hget by assumption. discriminate.
    + exists pre, item, post, e. rewrite Hd in Hd'. injection Hd' as ->.
      auto.
  - intros pre post -> Hpre.
    eapply generate_prompt_first_failure; eauto.
    now apply validate_item_missing.
Qed.

(** C7, amended.  With no placeholder declared (the map absent or empty)
    rendering raises no error of its own, for any mapping: its result is
    the substitution of the template, read from left to right, in which
    each placeholder occurrence is replaced by the text of its value when
    its name is a key of the mapping and by the empty text otherwise,
    everything else unchanged.  The result is a text as soon as [str]
    succeeds on the value of every name that occurs; the only exception
    that can leave the call is the one [str] raises on such a value. *)
Theorem render_without_declarations self (replacements : gmap string value) :
  opt_truthy (placeholders (_specification self)) = false ->
  exists res,
    generate_prompt (Some replacements) self = (res, self)
    /\ substitution replacements (template (_specification self)) res
    /\ (forall res',
          substitution replacements (template (_specification self)) res' ->
          res' = res)
    /\ (forall e, res = Raise e ->
          exists n v,
            occurs n (template (_specification self))
            /\ replacements !! n = Some v /\ v <> VNone
            /\ py_str v = Raise e)
    /\ ((forall n v,
           occurs n (template (_specification self)) ->
           replacements !! n = Some v -> exists t, py_str v = Ok t) ->
        exists out, res = Ok out).
Proof.
  intros Hnone.
  pose proof (substitution_scan replacements
                (template (_specification self))) as Hsub.
  exists (rendered replacements self). split; [|split; [|split; [|split]]].
  - apply generate_prompt_validated. unfold validated.
    destruct (placeholders (_specification self)) as [[|item d]|];
      [constructor|discriminate|exact I].
  - exact Hsub.
  - intros res' Hres'. eapply substitution_functional; eauto.
  - intros e He. eapply substitution_raise_origin; eauto.
  - intros Hall. eapply substitution_succeeds; eauto.
Qed.

(** C9.  Rendering is a function of the specification and the mapping and
    leaves the template object as it was: two calls in a row give the same
    outcome, text or error, and the object, its template text included, is
    after each call what it was before. *)
Theorem render_deterministic replacements self :
  let '(r1, self1) := generate_prompt replacements self in
  let '(r2, self2) := generate_prompt replacements self1 in
  r1 = r2 /\ self1 = self /\ self2 = self
  /\ template (_specification self2) = template (_specification self).
Proof.
  pose proof (readonly_generate_prompt replacements) as Hro.
  rewrite (readonly_run _ self Hro).
  rewrite (readonly_run _ self Hro). auto.
Qed.

(** The amended C3 at the greeting, whose only declaration is the required
    [name], rendered with [{name: None}]. *)
Lemma null_satisfies_required_witness :
  exists res,
    generate_prompt (Some replacements_null_name) greeting = (res, greeting)
    /\ substitution replacements_null_name
         "Hello {name}! Welcome to {platform}." res.
Proof.
  destruct (null_satisfies_required greeting replacements_null_name
              [("name", {| type := TString; required := true |})] "name"
              {| type := TString; required := true |})
    as (_ & _ & _ & _ & Hrender).
  - reflexivity.
  - reflexivity.
  - reflexivity.
  - vm_compute. reflexivity.
  - destruct Hrender as (res & Hrun & Hsub & _).
    + intros item [<-|[]] Hne. now contradiction Hne.
    + exists res. split; [exact Hrun|exact Hsub].
Defined.

(** C3 as stated fails: with [name] and [platform] both declared required
    and the mapping [{name: None}], the hypotheses of the claim hold for
    [name], yet rendering does not succeed, and the error it raises is a
    missing-placeholder error. *)
Lemma null_name_missing_platform :
  get [("name", {| type := TString; required := true |});
       ("platform", {| type := TString; required := true |})] "name"
  = Some {| type := TString; required := true |}
  /\ placeholders (_specification greeting_strict)
     = Some [("name", {| type := TString; required := true |});
             ("platform", {| type := TString; required := true |})]
  /\ replacements_null_name !! "name" = Some VNone
  /\ generate_prompt (Some replacements_null_name) greeting_strict
     = (Raise (MissingPlaceholderException "platform"), greeting_strict).
Proof. repeat split; vm_compute; reflexivity. Qed.

(** C4 as stated fails: the one name found in the template [{a{b}]
    contains a brace. *)
Lemma nested_name_contains_brace :
  get_placeholder_names nested = (Ok ["a{b"], nested)
  /\ has_char "{" "a{b" = true.
Proof. split; vm_compute; reflexivity. Qed.

(** The amended C6 at the greeting rendered with the empty mapping
    (scenario C). *)
Lemma required_missing_fails_witness :
  generate_prompt (Some ∅) greeting
  = (Raise (MissingPlaceholderException "name"), greeting).
Proof.
  refine (proj2
    (required_missing_fails greeting ∅
       [("name", {| type := TString; required := true |})] "name"
       {| type := TString; required := true |} _ _ _ _) [] [] _ _).
  - reflexivity.
  - reflexivity.
  - reflexivity.
  - vm_compute. reflexivity.
  - reflexivity.
  - constructor.
Defined.

(** C6 as stated fails: [name] is declared required and is not a key of
    the mapping [{count: many}], yet the error raised is not a
    missing-placeholder error: it is the type error of [count], declared
    before [name]. *)
Lemma missing_name_reported_as_type_error :
  get [("count", {| type := TNumber; required := false |});
       ("name", {| type := TString; required := true |})] "name"
  = Some {| type := TString; required := true |}
  /\ placeholders (_specification inventory)
     = Some [("count", {| type := TNumber; required := false |});
             ("name", {| type := TString; required := true |})]
  /\ replacements_bad_count !! "name" = None
  /\ generate_prompt (Some replacements_bad_count) inventory
     = (Raise (PlaceholderTypeException "count" "number" "string"), inventory).
Proof. repeat split; vm_compute; reflexivity. Qed.

(** The amended C7 at the undeclared template [{a{b}] with a mapping that
    has its one name. *)
Lemma render_without_declarations_witness :
  exists res,
    generate_prompt (Some replacements_flag) nested = (res, nested)
    /\ substitution replacements_flag "{a{b}" res.
Proof.
  destruct (render_without_declarations nested replacements_flag eq_refl)
    as (res & Hrun & Hsub & _).
  exists res. split; [exact Hrun|exact Hsub].
Defined.

Lemma str_of_int_at_bound : str_of_int int_str_bound = Raise int_too_long.
Proof.
  unfold str_of_int. rewrite Z.abs_eq.
  - rewrite Z.leb_refl. reflexivity.
  - unfold int_str_bound. apply Z.pow_nonneg. discriminate.
Qed.

(** C7 as stated fails: the template [{a}] declares nothing, and with the
    mapping that gives [a] the least int of 4301 digits rendering raises
    the [ValueError] of [str]. *)
Lemma oversized_int_render_raises :
  opt_truthy (placeholders (_specification single)) = false
  /\ generate_prompt (Some replacements_oversized) single
     = (Raise int_too_long, single).
Proof.
  split; [reflexivity|].
  rewrite generate_prompt_validated by exact I.
  unfold rendered.
  assert (Hscan : Re.scan _PLACEHOLDER_REGEX (template (_specification single))
                  = [Re.Matched (placeholder_match "a")])
    by (vm_compute; reflexivity).
  rewrite Hscan. cbn [fill_all fill]. unfold replacement_text.
  change (Re.group (placeholder_match "a") 1) with "a".
  unfold replacements_oversized. rewrite lookup_insert_eq.
  cbn [py_str]. now rewrite str_of_int_at_bound.
Qed.

(* ===================================================================== *)
(** ** The parameters model *)
(* ===================================================================== *)

Lemma satisfies_temperature x :
  satisfies temperature_field x = true <-> (0 <= x /\ x <= 2)%Q.
Proof.
  unfold satisfies, temperature_field. cbn.
  rewrite andb_true_r, andb_true_iff, !Qle_bool_iff. reflexivity.
Qed.

Lemma satisfies_top_p x :
  satisfies top_p_field x = true <-> (0 <= x /\ x <= 1)%Q.
Proof.
  unfold satisfies, top_p_field. cbn.
  rewrite andb_true_r, andb_true_iff, !Qle_bool_iff. reflexivity.
Qed.

Lemma satisfies_max_tokens k :
  satisfies max_tokens_field (inject_Z k) = true <-> (0 < k)%Z.
Proof.
  unfold satisfies, max_tokens_field. cbn.
  rewrite negb_true_iff, <- not_true_iff_false, Qle_bool_iff.
  change 0%Q with (inject_Z 0). rewrite <- Zle_Qle. lia.
Qed.

Lemma check_field_raises f field_name x :
  satisfies f x = false ->
  check_field f field_name (Some x) = Raise (ValidationError field_name).
Proof. intros H. unfold check_field. now rewrite H. Qed.

(** C8.  Constructing [LLMParameters] fails with a validation error,
    instead of adjusting the value, for a temperature outside [0, 2], a
    [top_p] outside [0, 1], or a [max_tokens] that is not positive; it
    succeeds and keeps the values given when every field supplied is in its
    domain; and with nothing supplied every field is absent. *)
Theorem LLMParameters_domains
    (t p : option Q) (m : option Z) (stops : option (list string)) :
  (forall x, t = Some x -> (x < 0 \/ 2 < x)%Q ->
     exists msg, LLMParameters_init t p m stops = Raise (ValidationError msg))
  /\ (forall x, p = Some x -> (x < 0 \/ 1 < x)%Q ->
        exists msg, LLMParameters_init t p m stops = Raise (ValidationError msg))
  /\ (forall k, m = Some k -> (k <= 0)%Z ->
        exists msg, LLMParameters_init t p m stops = Raise (ValidationError msg))
  /\ (in_domain t p m ->
      LLMParameters_init t p m stops
      = Ok {| temperature := t; top_p := p;
              max_tokens := m; stop_sequences := stops |})
  /\ LLMParameters_default
     = Ok {| temperature := None; top_p := None;
             max_tokens := None; stop_sequences := None |}.
Proof.
  assert (Hcases : forall f fname (x : option Q),
             check_field f fname x = Ok tt
             \/ check_field f fname x = Raise (ValidationError fname)).
  { intros f fname [x|]; cbn; [destruct (satisfies f x)|]; auto. }
  split; [|split; [|split; [|split]]].
  - intros x -> Hout. exists "temperature". unfold LLMParameters_init.
    rewrite check_field_raises; [reflexivity|].
    apply not_true_iff_false. rewrite satisfies_temperature.
    intros [H0 H2]. destruct Hout as [H|H];
      [apply (Qlt_not_le _ _ H H0)|apply (Qlt_not_le _ _ H H2)].
  - intros x -> Hout. unfold LLMParameters_init.
    destruct (Hcases temperature_field "temperature" t) as [-> | ->];
      [|eauto].
    exists "top_p". rewrite check_field_raises; [reflexivity|].
    apply not_true_iff_false. rewrite satisfies_top_p.
    intros [H0 H1]. destruct Hout as [H|H];
      [apply (Qlt_not_le _ _ H H0)|apply (Qlt_not_le _ _ H H1)].
  - intros k -> Hout. unfold LLMParameters_init.
    destruct (Hcases temperature_field "temperature" t) as [-> | ->];
      [|eauto].
    destruct (Hcases top_p_field "top_p" p) as [-> | ->]; [|eauto].
    exists "max_tokens". cbn [option_map].
    rewrite (check_field_raises _ _ (inject_Z k)); [reflexivity|].
    apply not_true_iff_false. rewrite (satisfies_max_tokens k). lia.
  - intros (Ht & Hp & Hm). unfold LLMParameters_init.
    assert (E1 : check_field temperature_field "temperature" t = Ok tt).
    { destruct t as [x|]; [|reflexivity]. cbn.
      apply satisfies_temperature in Ht. now rewrite Ht. }
    assert (E2 : check_field top_p_field "top_p" p = Ok tt).
    { destruct p as [x|]; [|reflexivity]. cbn.
      apply satisfies_top_p in Hp. now rewrite Hp. }
    assert (E3 : check_field max_tokens_field "max_tokens"
                   (option_map inject_Z m) = Ok tt).
    { destruct m as [k|]; [|reflexivity]. cbn [option_map check_field].
      apply satisfies_max_tokens in Hm. now rewrite Hm. }
    now rewrite E1, E2, E3.
  - reflexivity.
Qed.

(** C8 at the parameters of the repository's test, and at a temperature
    of 2.5. *)
Lemma LLMParameters_domains_witness :
  LLMParameters_init (Some (7 # 10)%Q) (Some (9 # 10)%Q) (Some 100%Z)
    (Some ["END"; "STOP"])
  = Ok {| temperature := Some (7 # 10)%Q; top_p := Some (9 # 10)%Q;
          max_tokens := Some 100%Z; stop_sequences := Some ["END"; "STOP"] |}
  /\ exists msg,
       LLMParameters_init (Some (5 # 2)%Q) None None None
       = Raise (ValidationError msg).
Proof.
  split.
  - apply (LLMParameters_domains (Some (7 # 10)%Q) (Some (9 # 10)%Q)
             (Some 100%Z) (Some ["END"; "STOP"])).
    repeat split; vm_compute; congruence.
  - apply (proj1 (LLMParameters_domains (Some (5 # 2)%Q) None None None)
             (5 # 2)%Q eq_refl).
    right. reflexivity.
Defined.

(* ===================================================================== *)
(** ** The manager *)
(* ===================================================================== *)

Lemma contains_keys {V} (d : dict V) k : contains d k = true <-> In k (keys d).
Proof.
  unfold contains. induction d as [|[k' v] d IH]; simpl.
  - split; [discriminate|tauto].
  - destruct (String.eqb k' k) eqn:E.
    + apply String.eqb_eq in E. tauto.
    + apply String.eqb_neq in E. rewrite IH. split; [tauto|].
      intros [H|H]; [contradiction|exact H].
Qed.

(** Assigning to a key the dict lacks adds a last entry. *)
Lemma set_absent {V} (d : dict V) k v :
  contains d k = false -> set d k v = d ++ [(k, v)].
Proof.
  unfold contains. induction d as [|[k' v'] d IH]; simpl; [reflexivity|].
  destruct (String.eqb k' k); [discriminate|].
  intros H. f_equal. auto.
Qed.

Lemma str_truthy_empty s : negb (str_truthy s) = true <-> s = EmptyString.
Proof. destruct s; simpl; split; congruence. Qed.

(** [_validate_specification] accepts exactly the specifications that
    meet the semantic rules, raises a [PromptValidationException]
    otherwise, and touches nothing. *)
Lemma validate_specification_cases specification (self : PromptManager) :
  (semantically_valid specification
   /\ _validate_specification specification self = (Ok tt, self))
  \/ (~ semantically_valid specification
      /\ exists msg, _validate_specification specification self
                     = (Raise (PromptValidationException msg None), self)).
Proof.
  unfold _validate_specification, semantically_valid.
  destruct (negb (str_truthy (strip (name specification)))) eqn:En.
  { right. apply str_truthy_empty in En. split; [tauto|]. eauto. }
  destruct (negb (str_truthy (strip (template specification)))) eqn:Et.
  { right. apply str_truthy_empty in Et. split; [tauto|]. eauto. }
  assert (Hn : strip (name specification) <> EmptyString)
    by (intros H; apply str_truthy_empty in H; congruence).
  assert (Ht : strip (template specification) <> EmptyString)
    by (intros H; apply str_truthy_empty in H; congruence).
  cbn [bind ret].
  destruct (placeholders specification) as [d|]; [|left; split; [|reflexivity]].
  - assert (Hloop :
      (Forall (fun item : string * PlaceholderDefinition =>
                 strip (fst item) <> EmptyString) d
       /\ for_each (items d) (validate_placeholder_key specification) self
          = (Ok tt, self))
      \/ (~ Forall (fun item : string * PlaceholderDefinition =>
                      strip (fst item) <> EmptyString) d
          /\ exists msg,
               for_each (items d) (validate_placeholder_key specification) self
               = (Raise (PromptValidationException msg None), self))).
    { unfold items. induction d as [|[k def] d IH].
      - left. split; [constructor|reflexivity].
      - cbn [for_each validate_placeholder_key].
        destruct (negb (str_truthy (strip k))) eqn:Ek.
        + right. apply str_truthy_empty in Ek. split.
          * intros H. apply Forall_cons in H as [H _]. now apply H.
          * eauto.
        + assert (Hk : strip k <> EmptyString)
            by (intros H; apply str_truthy_empty in H; congruence).
          destruct IH as [[Hall Hok]|[Hno [msg Hr]]].
          * left. split; [now constructor|]. cbn [bind ret]. exact Hok.
          * right. split.
            -- intros H. apply Forall_cons in H as [_ H]. now apply Hno.
            -- exists msg. cbn [bind ret]. exact Hr. }
    destruct Hloop as [[Hall Hok]|[Hno [msg Hr]]].
    + left. split.
      * repeat split; auto. now intros d' [= <-].
      * destruct d; [reflexivity|exact Hok].
    + right. split.
      * intros (_ & _ & H). apply Hno. now apply H.
      * exists msg. destruct d; [|exact Hr].
        exfalso. apply Hno. constructor.
  - repeat split; auto. discriminate.
Qed.

Section LoadingFacts.
Variable yaml_data : Type.
Variable yaml_safe_load : string -> result yaml_data.
Variable yaml_truthy : yaml_data -> bool.
Variable yaml_contains : string -> yaml_data -> result bool.
Variable model_validate : yaml_data -> result PromptCollection.

(** One round of the loading loop: a specification that breaks a semantic
    rule or whose name is already registered raises and leaves the
    registry as it is; any other is registered last. *)
Lemma load_one_cases specification reg :
  ((~ semantically_valid specification \/ In (name specification) (keys reg))
   /\ exists msg, load_one specification {| _templates := reg |}
                  = (Raise (PromptValidationException msg None),
                     {| _templates := reg |}))
  \/ (semantically_valid specification
      /\ ~ In (name specification) (keys reg)
      /\ load_one specification {| _templates := reg |}
         = (Ok tt, {| _templates := reg ++ entries [specification] |})).
Proof.
  unfold load_one.
  destruct (validate_specification_cases specification {| _templates := reg |})
    as [[Hv Hok]|[Hno [msg Hr]]].
  - erewrite bind_ok by exact Hok. unfold bind, gets, modify, ret, raise.
    cbn [_templates].
    destruct (contains reg (name specification)) eqn:Ec.
    + left. apply contains_keys in Ec. split; [now right|]. eauto.
    + right. split; [exact Hv|]. split.
      * intros H. apply contains_keys in H. congruence.
      * now rewrite set_absent.
  - left. split; [now left|]. exists msg.
    erewrite bind_raise by exact Hr. reflexivity.
Qed.

(** The loading loop, from a registry with distinct names: it registers
    the specifications in order up to the first one that breaks a rule or
    repeats a name, and stops there with a [PromptValidationException]. *)
Lemma load_loop_cases specifications : forall reg,
  (Forall semantically_valid specifications
   /\ (NoDup (keys reg) -> NoDup (keys reg ++ map name specifications))
   /\ for_each specifications load_one {| _templates := reg |}
      = (Ok tt, {| _templates := reg ++ entries specifications |}))
  \/ (exists pre x post msg,
        specifications = pre ++ x :: post
        /\ Forall semantically_valid pre
        /\ (NoDup (keys reg) -> NoDup (keys reg ++ map name pre))
        /\ (~ semantically_valid x \/ In (name x) (keys reg ++ map name pre))
        /\ for_each specifications load_one {| _templates := reg |}
           = (Raise (PromptValidationException msg None),
              {| _templates := reg ++ entries pre |})).
Proof.
  induction specifications as [|x xs IH]; intros reg.
  - left. split; [constructor|]. split.
    + simpl. now rewrite app_nil_r.
    + simpl. unfold entries. simpl. now rewrite app_nil_r.
  - destruct (load_one_cases x reg) as [[Hbad [msg Hr]]|(Hv & Hfresh & Hok)].
    + right. exists [], x, xs, msg. simpl. rewrite !app_nil_r.
      repeat split; auto.
      erewrite bind_raise by exact Hr. reflexivity.
    + assert (Hkeys : keys (reg ++ entries [x]) = keys reg ++ [name x]).
      { unfold keys, entries. rewrite map_app. reflexivity. }
      assert (Hnd : NoDup (keys reg) -> NoDup (keys reg ++ [name x])).
      { intros H. apply NoDup_app. split; [exact H|]. split.
        - intros k Hk Hx. apply list_elem_of_In in Hk.
          apply list_elem_of_singleton in Hx. subst k. contradiction.
        - apply NoDup_singleton. }
      destruct (IH (reg ++ entries [x]))
        as [(Hall & Hdistinct & Hrun)
           |(pre & y & post & msg & -> & Hpre & Hdistinct & Hy & Hrun)].
      * left. split; [now constructor|]. split.
        -- intros H. rewrite Hkeys in Hdistinct. simpl.
           specialize (Hdistinct (Hnd H)).
           now rewrite <- app_assoc in Hdistinct.
        -- simpl. erewrite bind_ok by exact Hok. rewrite Hrun.
           unfold entries. simpl. now rewrite <- app_assoc.
      * right. exists (x :: pre), y, post, msg. split; [reflexivity|].
        split; [now constructor|]. split; [|split].
        -- intros H. rewrite Hkeys in Hdistinct. simpl.
           specialize (Hdistinct (Hnd H)).
           now rewrite <- app_assoc in Hdistinct.
        -- rewrite Hkeys, <- app_assoc in Hy. exact Hy.
        -- simpl. erewrite bind_ok by exact Hok. rewrite Hrun.
           unfold entries. simpl. now rewrite <- app_assoc.
Qed.

(** The handler always raises, from the state it is entered in. *)
Lemma load_handler_raises {A} e (self : PromptManager) :
  exists e', load_handler (A := A) e self = (Raise e', self).
Proof.
  unfold load_handler.
  destruct (is_YAMLError e); [eauto|].
  destruct (is_PromptValidationException e); eauto.
Qed.

End LoadingFacts.

Section LoadingProperties.
Variable yaml_data : Type.
Variable yaml_safe_load : string -> result yaml_data.
Variable yaml_truthy : yaml_data -> bool.
Variable yaml_contains : string -> yaml_data -> result bool.
Variable model_validate : yaml_data -> result PromptCollection.

Local Abbreviation load :=
  (load_templates yaml_data yaml_safe_load yaml_truthy yaml_contains
     model_validate).
Local Abbreviation load_async :=
  (load_templates_async yaml_data yaml_safe_load yaml_truthy yaml_contains
     model_validate).
Local Abbreviation bound :=
  (bound_collection yaml_data yaml_safe_load yaml_truthy yaml_contains
     model_validate).

(** C1, amended.  A load that fails before the pass over the
    specifications (blank text, parse failure, no [prompts] section,
    binding failure) leaves the registry exactly as it was.  A load that
    fails in that pass (empty name, template or placeholder name,
    duplicate name) has already cleared the registry: it leaves it holding
    the templates of the specifications that precede the failing one in the
    document, and nothing of what was loaded before. *)
Theorem failed_load_registry yaml_content self e self' :
  load yaml_content self = (Raise e, self') ->
  match bound yaml_content with
  | None => self' = self
  | Some collection =>
      exists pre failing post,
        prompts collection = pre ++ failing :: post
        /\ Forall semantically_valid pre
        /\ NoDup (map name pre)
        /\ (~ semantically_valid failing \/ In (name failing) (map name pre))
        /\ self' = {| _templates := entries pre |}
  end.
Proof.
  unfold load_templates, bound_collection.
  destruct (none_or_blank yaml_content).
  { intros [= _ <-]. reflexivity. }
  unfold try_except, bind, lift, no_prompts_section, clear, modify.
  destruct (yaml_safe_load (the_str yaml_content)) as [yaml|e0].
  2:{ destruct (load_handler_raises (A := unit) e0 self) as [e' ->].
      intros [= _ <-]. reflexivity. }
  destruct (yaml_truthy yaml); cbn [negb].
  2:{ cbn. intros [= _ <-]. reflexivity. }
  unfold bind, lift.
  destruct (yaml_contains "prompts" yaml) as [[|]|e0].
  - cbn [ret negb].
    destruct (model_validate yaml) as [collection|e0].
    + destruct (load_loop_cases (prompts collection) [])
        as [(_ & _ & Hrun)
           |(pre & x & post & msg & Hsplit & Hpre & Hdistinct & Hx & Hrun)].
      * unfold empty. rewrite Hrun. discriminate.
      * unfold empty. rewrite Hrun. cbn. intros [= _ <-].
        exists pre, x, post. repeat split; auto.
        apply Hdistinct. constructor.
    + destruct (load_handler_raises (A := unit) e0 self) as [e' ->].
      intros [= _ <-]. reflexivity.
  - cbn. intros [= _ <-]. reflexivity.
  - destruct (load_handler_raises (A := unit) e0 self) as [e' ->].
    intros [= _ <-]. reflexivity.
Qed.

(** C10.  Awaiting [load_templates_async] and calling [load_templates]
    are the same computation: on every document and from every registry
    they take the same steps, raise the same error, and leave the same
    registry. *)
Theorem load_async_equivalent yaml_content self :
  await (load_async yaml_content) self = load yaml_content self.
Proof.
  unfold load_templates_async, load_templates, await.
  destruct (none_or_blank yaml_content); [reflexivity|].
  unfold try_except. f_equal.
Qed.

End LoadingProperties.

(** C1 as stated fails (scenario E from a loaded manager): the manager
    holds [test]; loading the document with two specifications named
    [duplicate] raises the duplicate-name error, and afterwards the
    registry holds the first [duplicate] and no longer holds [test].  From
    a new manager the same load leaves the first [duplicate] registered,
    not an empty registry. *)
Lemma duplicate_load_replaces_registry :
  template_names loaded_manager = (Ok ["test"], loaded_manager)
  /\ outcome template_names
       (snd (load_known (Some doc_duplicate) PromptManager_init))
     = Ok ["duplicate"]
  /\ exists after,
       load_known (Some doc_duplicate) loaded_manager
       = (Raise (PromptValidationException
                   "Duplicate prompt name 'duplicate' found." None), after)
       /\ outcome template_names after = Ok ["duplicate"]
       /\ outcome template_count after = Ok 1
       /\ outcome (has_prompt (Some "test")) after = Ok false
       /\ outcome (get_prompt (Some "test")) after = Ok None
       /\ outcome (has_prompt (Some "duplicate")) after = Ok true
       /\ after <> loaded_manager.
Proof.
  split; [vm_compute; reflexivity|].
  split; [vm_compute; reflexivity|].
  eexists. split; [vm_compute; reflexivity|].
  repeat split; try (vm_compute; reflexivity).
  vm_compute. discriminate.
Qed.

(** The amended C1 at the same load: the registry it leaves is that of
    the one specification that precedes the repeated name. *)
Lemma failed_load_registry_witness :
  exists pre failing post,
    [first_duplicate; second_duplicate] = pre ++ failing :: post
    /\ Forall semantically_valid pre
    /\ NoDup (map name pre)
    /\ (~ semantically_valid failing \/ In (name failing) (map name pre))
    /\ {| _templates := entries [first_duplicate] |}
       = {| _templates := entries pre |}.
Proof.
  apply (failed_load_registry (list PromptSpecification) parse_known
           (fun _ => true) (fun _ _ => Ok true)
           (fun specifications => Ok {| prompts := specifications |})
           (Some doc_duplicate) loaded_manager
           (PromptValidationException
              "Duplicate prompt name 'duplicate' found." None)
           {| _templates := entries [first_duplicate] |}).
  vm_compute. reflexivity.
Defined.

(* ===================================================================== *)
(** ** Further properties of the template engine *)
(* ===================================================================== *)

Section EngineFacts.
Import Re.

(** Every match the scan reports is an occurrence of its name. *)
Lemma scan_matched_occurs s m :
  In (Matched m) (scan _PLACEHOLDER_REGEX s) ->
  exists n, m = placeholder_match n /\ occurs n s.
Proof.
  intros Hin.
  assert (Hname : In (group m 1) (findall _PLACEHOLDER_REGEX s)).
  { unfold findall. apply list_elem_of_In, list_elem_of_omap.
    exists (Matched m). split; [now apply list_elem_of_In|reflexivity]. }
  pose proof (scan_pieces s) as Hall. rewrite List.Forall_forall in Hall.
  destruct (Hall _ Hin) as (n & -> & _ & _).
  exists n. split; [reflexivity|]. now apply findall_occurs.
Qed.

Lemma has_char_middle c a b : has_char c (a +:+ String c b) = true.
Proof.
  induction a as [|x a IH]; cbn [String.append has_char].
  - now rewrite Ascii.eqb_refl.
  - rewrite IH. apply orb_true_r.
Qed.

(** A text without closing brace has no placeholder at its start. *)
Lemma no_close_no_placeholder s n rest :
  has_char "}" s = false -> ~ placeholder_at s n rest.
Proof.
  intros Hno (-> & _ & _).
  assert (Hyes : has_char "}" (String "{" (n +:+ String "}" rest)) = true).
  { cbn [has_char]. rewrite has_char_middle. apply orb_true_r. }
  congruence.
Qed.

(** A text without closing brace is scanned into its characters. *)
Lemma scan_no_close s :
  has_char "}" s = false ->
  Forall (fun p => exists c, p = Skipped c) (scan _PLACEHOLDER_REGEX s).
Proof.
  induction s as [|c s IH]; intros Hno; [constructor|].
  rewrite scan_step.
  destruct (match_at _PLACEHOLDER_REGEX (String c s)) as [[m rest]|] eqn:E.
  - apply match_at_placeholder_iff in E as (n & Hat & _).
    now apply no_close_no_placeholder in Hat.
  - simpl in Hno. apply orb_false_iff in Hno as [_ Hno].
    constructor; [now exists c|auto].
Qed.

Lemma for_each_ext {S A} (xs : list A) (body1 body2 : A -> M S unit) s :
  (forall x, In x xs -> forall s', body1 x s' = body2 x s') ->
  for_each xs body1 s = for_each xs body2 s.
Proof.
  revert s. induction xs as [|x xs IH]; intros s H; [reflexivity|].
  simpl. unfold bind. rewrite (H x) by now left.
  destruct (body2 x s) as [[[]|e] s']; [|reflexivity].
  apply IH. intros y Hy. apply H. now right.
Qed.

Lemma sub_pieces_ext {S} (repl1 repl2 : match_obj -> M S string) ps s :
  readonly_all repl1 ->
  (forall m, In (Matched m) ps -> repl1 m s = repl2 m s) ->
  sub_pieces repl1 ps s = sub_pieces repl2 ps s.
Proof.
  intros Hro H. induction ps as [|[c|m] ps IH].
  - reflexivity.
  - simpl. unfold bind. rewrite IH; [reflexivity|].
    intros m Hm. apply H. now right.
  - simpl. unfold bind. rewrite <- (H m) by now left.
    pose proof (Hro m s) as Hs.
    destruct (repl1 m s) as [[text|e] s'] eqn:E; simpl in Hs; subst s';
      [|reflexivity].
    rewrite IH; [reflexivity|]. intros m' Hm'. apply H. now right.
Qed.

End EngineFacts.

Section EngineProperties.
Variable self : PromptTemplate.
Variable replacements : gmap string value.

(** X1.  [generate_prompt] leaves the template object as it was and ends
    in one of two ways.  Either every declared placeholder passes
    validation, and the result is the substitution of the template, read
    from left to right: each placeholder replaced by its replacement text,
    every other character kept, or the exception [str] raises on the value
    of a name that occurs; the substitution pass raises nothing else, its
    own test for a required placeholder cannot fire once validation has
    passed.  Or the call raises the error of the first declared
    placeholder, in declaration order, that fails validation. *)
Theorem render_outcomes :
  (validated replacements self
   /\ exists res,
        generate_prompt (Some replacements) self = (res, self)
        /\ substitution replacements (template (_specification self)) res
        /\ (forall res',
              substitution replacements (template (_specification self)) res' ->
              res' = res)
        /\ (forall e, res = Raise e ->
              exists n v,
                occurs n (template (_specification self))
                /\ replacements !! n = Some v /\ v <> VNone
                /\ py_str v = Raise e))
  \/ (exists d pre item post e,
        placeholders (_specification self) = Some d
        /\ d = pre ++ item :: post
        /\ Forall (fun i => outcome (validate_item replacements i) self = Ok tt)
                  pre
        /\ validate_item replacements item self = (Raise e, self)
        /\ generate_prompt (Some replacements) self = (Raise e, self)).
Proof.
  pose proof (substitution_scan replacements
                (template (_specification self))) as Hsub.
  destruct (generate_prompt_cases replacements self) as [[Hv Hrun]|Hfail].
  - left. split; [exact Hv|]. exists (rendered replacements self).
    split; [exact Hrun|]. split; [exact Hsub|]. split.
    + intros res' Hres'. eapply substitution_functional; eauto.
    + intros e He. eapply substitution_raise_origin; eauto.
  - right. exact Hfail.
Qed.

(** A value whose class is the declared one passes the check of its
    item. *)
Lemma validate_item_matching n def v :
  replacements !! n = Some v ->
  _get_value_type v = type_name (type def) ->
  validate_item replacements (n, def) self = (Ok tt, self).
Proof.
  intros Hn Hty. unfold validate_item, has_key. rewrite Hn, andb_false_r.
  unfold _validate_type. rewrite Hty, String.eqb_refl.
  destruct v; reflexivity.
Qed.

(** X2.  What [generate_prompt] can raise on a mapping.  The template
    object is unchanged, and the error has one of three origins: a
    [MissingPlaceholderException] naming a declared placeholder that is
    required and is not a key of the mapping; a [PlaceholderTypeException]
    naming a declared placeholder whose value in the mapping is not
    [None], carrying the declared type and the class found for the value,
    which differ; or, validation having passed, the exception [str] raises
    on the value the mapping gives a name that occurs in the template. *)
Theorem render_error_anatomy e self' :
  generate_prompt (Some replacements) self = (Raise e, self') ->
  self' = self
  /\ ((exists d n def,
         placeholders (_specification self) = Some d /\ In (n, def) d
         /\ ((e = MissingPlaceholderException n
              /\ required def = true /\ replacements !! n = None)
             \/ (exists v,
                   replacements !! n = Some v /\ v <> VNone
                   /\ e = PlaceholderTypeException n (type_name (type def))
                            (_get_value_type v)
                   /\ _get_value_type v <> type_name (type def))))
      \/ (validated replacements self
          /\ exists n v,
               occurs n (template (_specification self))
               /\ replacements !! n = Some v /\ v <> VNone
               /\ py_str v = Raise e)).
Proof.
  intros H.
  pose proof (readonly_generate_prompt (Some replacements) self) as Hro.
  rewrite H in Hro. simpl in Hro. subst self'. split; [reflexivity|].
  apply generate_prompt_raises
    in H as [(d & [n def] & Hd & Hin & Hitem)|[Hv Hren]].
  - left. exists d, n, def. split; [exact Hd|]. split; [exact Hin|].
    pose proof Hitem as Hraise.
    apply validate_item_raises in Hitem as [Hmiss|(v & Hn & Hnone & ->)];
      [now left|].
    right. exists v. repeat split; auto.
    intros Hty. rewrite (validate_item_matching n def v Hn Hty) in Hraise.
    discriminate.
  - right. split; [exact Hv|]. unfold rendered in Hren.
    eapply substitution_raise_origin; [apply substitution_scan|exact Hren].
Qed.

End EngineProperties.

(** X2 at the inventory template given a string for its count. *)
Lemma render_error_anatomy_witness :
  inventory = inventory
  /\ ((exists d n def,
         placeholders (_specification inventory) = Some d /\ In (n, def) d
         /\ ((PlaceholderTypeException "count" "number" "string"
              = MissingPlaceholderException n
              /\ required def = true /\ replacements_bad_count !! n = None)
             \/ (exists v,
                   replacements_bad_count !! n = Some v /\ v <> VNone
                   /\ PlaceholderTypeException "count" "number" "string"
                      = PlaceholderTypeException n (type_name (type def))
                          (_get_value_type v)
                   /\ _get_value_type v <> type_name (type def))))
      \/ (validated replacements_bad_count inventory
          /\ exists n v,
               occurs n (template (_specification inventory))
               /\ replacements_bad_count !! n = Some v /\ v <> VNone
               /\ py_str v
                  = Raise (PlaceholderTypeException "count" "number" "string"))).
Proof.
  apply (render_error_anatomy inventory replacements_bad_count
           (PlaceholderTypeException "count" "number" "string") inventory).
  vm_compute. reflexivity.
Defined.

(** The check of an item reads the mapping at the name of the item
    only. *)
Lemma validate_item_ext (r1 r2 : gmap string value) n def s :
  r1 !! n = r2 !! n ->
  validate_item r1 (n, def) s = validate_item r2 (n, def) s.
Proof.
  intros H. unfold validate_item, has_key. now rewrite H.
Qed.

(** The closure reads the mapping at the name of the match only. *)
Lemma replace_placeholder_ext (r1 r2 : gmap string value) m s :
  r1 !! Re.group m 1 = r2 !! Re.group m 1 ->
  replace_placeholder r1 m s = replace_placeholder r2 m s.
Proof.
  intros H. unfold replace_placeholder, has_key. now rewrite H.
Qed.

(** X3.  [generate_prompt] reads the mapping only at the names that are
    declared and at the names that occur in the template: two mappings
    that agree on those give the same outcome, so keys that are neither
    declared nor used are ignored, whatever their values. *)
Theorem render_reads_only_used_keys self (r1 r2 : gmap string value) :
  (forall k,
     declared self k \/ occurs k (template (_specification self)) ->
     r1 !! k = r2 !! k) ->
  generate_prompt (Some r1) self = generate_prompt (Some r2) self.
Proof.
  intros Hagree.
  assert (Hval : _validate_placeholders r1 self = _validate_placeholders r2 self).
  { unfold _validate_placeholders, bind, gets. cbn beta.
    destruct (placeholders (_specification self)) as [d|] eqn:Hd;
      [|reflexivity].
    destruct (truthy d); [|reflexivity].
    apply for_each_ext. intros [k def] Hin s'. apply validate_item_ext.
    apply Hagree. left. now exists d, def. }
  unfold generate_prompt, bind, gets. cbn beta.
  destruct (opt_truthy (placeholders (_specification self))).
  - rewrite Hval.
    rewrite (readonly_run _ self (readonly_validate_placeholders r2)).
    destruct (outcome (_validate_placeholders r2) self) as [[]|e];
      [|reflexivity].
    unfold Re.sub. apply sub_pieces_ext.
    + intros m s. apply readonly_replace_placeholder.
    + intros m Hm. apply replace_placeholder_ext.
      apply scan_matched_occurs in Hm as (n & -> & Hocc).
      apply Hagree. now right.
  - cbn. unfold Re.sub. apply sub_pieces_ext.
    + intros m s. apply readonly_replace_placeholder.
    + intros m Hm. apply replace_placeholder_ext.
      apply scan_matched_occurs in Hm as (n & -> & Hocc).
      apply Hagree. now right.
Qed.

(** X3 at the greeting, with and without a key it neither declares nor
    uses. *)
Lemma render_reads_only_used_keys_witness :
  generate_prompt (Some replacements_with_unused) greeting
  = generate_prompt (Some replacements_name_only) greeting.
Proof.
  apply (render_reads_only_used_keys greeting replacements_with_unused
           replacements_name_only).
  assert (Hne : forall k, k <> "unused" ->
            replacements_with_unused !! k = replacements_name_only !! k).
  { intros k Hk. unfold replacements_with_unused, replacements_name_only.
    destruct (decide (k = "name")) as [->|Hname]; [reflexivity|].
    rewrite !lookup_insert_ne by congruence. reflexivity. }
  intros k [(d & def & Hd & Hin)|Hocc]; apply Hne; intros ->.
  - injection Hd as <-. destruct Hin as [Hin|[]]. discriminate.
  - apply findall_occurs in Hocc. vm_compute in Hocc.
    destruct Hocc as [Hocc|[Hocc|[]]]; discriminate.
Defined.

(** X4.  Filling each placeholder with its own text gives the template
    back: when validation passes and the mapping sends every name [n] that
    occurs in the template to the string [{n}], [generate_prompt] returns
    the template text, character for character.  The text between the
    placeholders is never altered, and a placeholder is replaced by its
    value exactly, once. *)
Theorem render_braced_identity self (replacements : gmap string value) :
  validated replacements self ->
  (forall n, occurs n (template (_specification self)) ->
             replacements !! n = Some (VStr (braced n))) ->
  generate_prompt (Some replacements) self
  = (Ok (template (_specification self)), self).
Proof.
  intros Hv Hid. rewrite generate_prompt_validated by exact Hv.
  unfold rendered. rewrite fill_all_sources.
  - now rewrite scan_source.
  - intros [c|m] Hin; [reflexivity|].
    apply scan_matched_occurs in Hin as (n & -> & Hocc).
    cbn [fill source]. unfold replacement_text.
    change (Re.group (placeholder_match n) 1) with n.
    now rewrite (Hid n Hocc).
Qed.

(** X4 at the greeting. *)
Lemma render_braced_identity_witness :
  generate_prompt (Some replacements_braced) greeting
  = (Ok "Hello {name}! Welcome to {platform}.", greeting).
Proof.
  apply (render_braced_identity greeting replacements_braced).
  - unfold validated. cbn. repeat constructor.
  - intros n Hocc. apply findall_occurs in Hocc. vm_compute in Hocc.
    destruct Hocc as [<-|[<-|[]]]; vm_compute; reflexivity.
Defined.

(** X5.  A template without closing brace has no placeholder, even if it
    has opening braces: [get_placeholder_names] returns the empty list,
    and [generate_prompt] returns the text unchanged for every mapping
    that passes validation. *)
Theorem render_without_closing_brace self :
  has_char "}" (template (_specification self)) = false ->
  get_placeholder_names self = (Ok [], self)
  /\ forall replacements : gmap string value,
       validated replacements self ->
       generate_prompt (Some replacements) self
       = (Ok (template (_specification self)), self).
Proof.
  intros Hno. pose proof (scan_no_close _ Hno) as Hall. split.
  - unfold get_placeholder_names, bind, gets, ret. cbn beta.
    assert (Hnil : Re.findall _PLACEHOLDER_REGEX (template (_specification self))
                   = []).
    { unfold Re.findall.
      induction Hall as [|p ps [c ->] _ IH]; [reflexivity|exact IH]. }
    rewrite Hnil. cbn. now rewrite elements_empty.
  - intros replacements Hv. rewrite generate_prompt_validated by exact Hv.
    unfold rendered. rewrite fill_all_sources.
    + now rewrite scan_source.
    + intros p Hin.
      rewrite List.Forall_forall in Hall. destruct (Hall p Hin) as [c ->].
      reflexivity.
Qed.

(** X5 at a template whose brace is never closed. *)
Lemma render_without_closing_brace_witness :
  get_placeholder_names unclosed = (Ok [], unclosed)
  /\ generate_prompt (Some replacements_A) unclosed
     = (Ok "Dear {name, welcome.", unclosed).
Proof.
  destruct (render_without_closing_brace unclosed eq_refl) as [Hnames Hrender].
  split; [exact Hnames|]. apply Hrender.
  unfold validated. cbn. repeat constructor.
Defined.

(* ===================================================================== *)
(** ** Further properties of the manager *)
(* ===================================================================== *)

Lemma strip_nonempty s : strip s <> EmptyString -> s <> EmptyString.
Proof. intros H ->. now apply H. Qed.

(** A name that survives trimming passes the blank test of the lookups. *)
Lemma valid_name_not_blank n :
  strip n <> EmptyString -> none_or_blank (Some n) = false.
Proof.
  intros H. unfold none_or_blank.
  destruct n as [|c n]; [exfalso; now apply H|].
  destruct (strip (String c n)); [exfalso; now apply H|reflexivity].
Qed.

Lemma none_or_blank_spec n :
  none_or_blank (Some n) = true <-> strip n = EmptyString.
Proof.
  unfold none_or_blank. split.
  - destruct n as [|c n]; [reflexivity|].
    destruct (strip (String c n)); [reflexivity|discriminate].
  - intros H. destruct n as [|c n]; [reflexivity|]. now rewrite H.
Qed.

(** Looking up the name of a listed specification among the entries of a
    list with distinct names finds the template of that specification. *)
Lemma get_entries specifications specification :
  NoDup (map name specifications) ->
  In specification specifications ->
  get (entries specifications) (name specification)
  = Some {| _specification := specification |}.
Proof.
  induction specifications as [|x xs IH]; intros Hnd Hin; [destruct Hin|].
  apply NoDup_cons in Hnd as [Hx Hnd]. cbn [entries map get].
  destruct Hin as [->|Hin].
  - now rewrite String.eqb_refl.
  - destruct (String.eqb (name x) (name specification)) eqn:E.
    + apply String.eqb_eq in E. exfalso. apply Hx. rewrite E.
      apply list_elem_of_In, in_map. exact Hin.
    + now apply IH.
Qed.

Lemma keys_entries specifications :
  keys (entries specifications) = map name specifications.
Proof. unfold keys, entries. rewrite map_map. reflexivity. Qed.

Lemma get_absent {V} (d : dict V) k : ~ In k (keys d) -> get d k = None.
Proof.
  intros H. destruct (get d k) eqn:E; [|reflexivity].
  exfalso. apply H. apply contains_keys. unfold contains. now rewrite E.
Qed.

(** The handler turns every exception into one of the class
    [PromptValidationException], and lets one of that class through as it
    is. *)
Lemma load_handler_class e :
  exists e',
    is_PromptValidationException e' = true
    /\ (is_YAMLError e = true ->
        e' = PromptValidationException "Failed to parse YAML content." (Some e))
    /\ (is_YAMLError e = false -> is_PromptValidationException e = true ->
        e' = e)
    /\ forall self : PromptManager,
         load_handler (A := unit) e self = (Raise e', self).
Proof.
  unfold load_handler.
  destruct (is_YAMLError e) eqn:Ey.
  - exists (PromptValidationException "Failed to parse YAML content." (Some e)).
    repeat split; try reflexivity; intros; congruence.
  - destruct (is_PromptValidationException e) eqn:Ep.
    + exists e. repeat split; try reflexivity; intros; congruence.
    + exists (PromptValidationException
                "An error occurred while loading templates." (Some e)).
      repeat split; try reflexivity; intros; congruence.
Qed.

(** The loading loop under the handler of the load methods, from the
    cleared registry. *)
Lemma load_loop_run specifications :
  let run := try_except (for_each specifications load_one) load_handler
               {| _templates := empty |} in
  (Forall semantically_valid specifications
   /\ NoDup (map name specifications)
   /\ run = (Ok tt, {| _templates := entries specifications |}))
  \/ (exists pre x post msg,
        specifications = pre ++ x :: post
        /\ Forall semantically_valid pre
        /\ NoDup (map name pre)
        /\ (~ semantically_valid x \/ In (name x) (map name pre))
        /\ run = (Raise (PromptValidationException msg None),
                  {| _templates := entries pre |})).
Proof.
  intros run. subst run. unfold try_except.
  destruct (load_loop_cases specifications [])
    as [(Hall & Hdistinct & Hrun)
       |(pre & x & post & msg & -> & Hpre & Hdistinct & Hx & Hrun)].
  - left. unfold empty. rewrite Hrun. repeat split; auto.
    apply Hdistinct. constructor.
  - right. exists pre, x, post, msg. unfold empty. rewrite Hrun.
    repeat split; auto. apply Hdistinct. constructor.
Qed.

(** A list that splits at an element breaking a rule or repeating an
    earlier name is not a list of valid specifications with distinct
    names. *)
Lemma split_at_failure pre x post :
  (~ semantically_valid x \/ In (name x) (map name pre)) ->
  Forall semantically_valid (pre ++ x :: post) ->
  NoDup (map name (pre ++ x :: post)) -> False.
Proof.
  intros [Hbad|Hdup] Hall Hnd.
  - apply Forall_app in Hall as [_ Hall].
    apply Forall_cons in Hall as [Hx _]. contradiction.
  - rewrite map_app in Hnd. apply NoDup_app in Hnd as (_ & Hdisj & _).
    apply (Hdisj (name x)); [now apply list_elem_of_In|]. simpl. left.
Qed.

Section ManagerFacts.
Variable yaml_data : Type.
Variable yaml_safe_load : string -> result yaml_data.
Variable yaml_truthy : yaml_data -> bool.
Variable yaml_contains : string -> yaml_data -> result bool.
Variable model_validate : yaml_data -> result PromptCollection.

Local Abbreviation load :=
  (load_templates yaml_data yaml_safe_load yaml_truthy yaml_contains
     model_validate).
Local Abbreviation bound :=
  (bound_collection yaml_data yaml_safe_load yaml_truthy yaml_contains
     model_validate).

(** The two courses of a load: the document binds to no collection and
    the call raises from the state it was entered in, the same error from
    every state; or it binds, and the call is the loop run from the
    cleared registry. *)
Lemma load_cases yaml_content :
  (bound yaml_content = None
   /\ exists e,
        (if none_or_blank yaml_content
         then e = ValueError "yaml_content cannot be None or empty"
         else is_PromptValidationException e = true)
        /\ forall self, load yaml_content self = (Raise e, self))
  \/ (exists collection,
        bound yaml_content = Some collection
        /\ none_or_blank yaml_content = false
        /\ forall self,
             load yaml_content self
             = try_except (for_each (prompts collection) load_one) load_handler
                 {| _templates := empty |}).
Proof.
  assert (Hinvalid : is_PromptValidationException
            (PromptValidationException
               "Invalid YAML: No 'prompts' section found or it is null." None)
          = true) by reflexivity.
  unfold bound_collection.
  destruct (none_or_blank yaml_content) eqn:Eb.
  { left. split; [reflexivity|]. eexists. split; [reflexivity|].
    intros self. unfold load_templates. now rewrite Eb. }
  destruct (yaml_safe_load (the_str yaml_content)) as [yaml|e0] eqn:Ey.
  2:{ left. split; [reflexivity|].
      destruct (load_handler_class e0) as (e' & Hc & _ & _ & Hrun).
      exists e'. split; [exact Hc|]. intros self.
      unfold load_templates. rewrite Eb.
      unfold try_except, bind, lift. rewrite Ey. apply Hrun. }
  destruct (yaml_truthy yaml) eqn:Et; cbn [negb].
  2:{ left. split; [reflexivity|]. eexists. split; [exact Hinvalid|].
      intros self. unfold load_templates. rewrite Eb.
      unfold try_except, bind, lift, no_prompts_section. rewrite Ey.
      cbn beta iota. rewrite Et. reflexivity. }
  destruct (yaml_contains "prompts" yaml) as [[|]|e0] eqn:Ec.
  - destruct (model_validate yaml) as [collection|e0] eqn:Em.
    + right. exists collection. split; [reflexivity|]. split; [reflexivity|].
      intros self. unfold load_templates. rewrite Eb.
      unfold try_except, bind, lift, no_prompts_section. rewrite Ey.
      cbn beta iota. rewrite Et. cbn [negb]. rewrite Ec.
      cbn beta iota. cbn [ret negb]. cbn beta iota. rewrite Em.
      reflexivity.
    + left. split; [reflexivity|].
      destruct (load_handler_class e0) as (e' & Hc & _ & _ & Hrun).
      exists e'. split; [exact Hc|]. intros self.
      unfold load_templates. rewrite Eb.
      unfold try_except, bind, lift, no_prompts_section. rewrite Ey.
      cbn beta iota. rewrite Et. cbn [negb]. rewrite Ec.
      cbn beta iota. cbn [ret negb]. cbn beta iota. rewrite Em.
      apply Hrun.
  - left. split; [reflexivity|]. eexists. split; [exact Hinvalid|].
    intros self. unfold load_templates. rewrite Eb.
    unfold try_except, bind, lift, no_prompts_section. rewrite Ey.
    cbn beta iota. rewrite Et. cbn [negb]. rewrite Ec. reflexivity.
  - left. split; [reflexivity|].
    destruct (load_handler_class e0) as (e' & Hc & _ & _ & Hrun).
    exists e'. split; [exact Hc|]. intros self.
    unfold load_templates. rewrite Eb.
    unfold try_except, bind, lift, no_prompts_section. rewrite Ey.
    cbn beta iota. rewrite Et. cbn [negb]. rewrite Ec. apply Hrun.
Qed.

End ManagerFacts.

Section ManagerProperties.
Variable yaml_data : Type.
Variable yaml_safe_load : string -> result yaml_data.
Variable yaml_truthy : yaml_data -> bool.
Variable yaml_contains : string -> yaml_data -> result bool.
Variable model_validate : yaml_data -> result PromptCollection.

Local Abbreviation load :=
  (load_templates yaml_data yaml_safe_load yaml_truthy yaml_contains
     model_validate).
Local Abbreviation bound :=
  (bound_collection yaml_data yaml_safe_load yaml_truthy yaml_contains
     model_validate).
Local Abbreviation cases :=
  (load_cases yaml_data yaml_safe_load yaml_truthy yaml_contains
     model_validate).

(** X6.  [load_templates] succeeds exactly when the document binds to a
    collection whose specifications all meet the semantic rules and have
    distinct names; the registry is then the templates of that collection,
    in document order, and holds nothing else. *)
Theorem successful_load yaml_content self self' :
  load yaml_content self = (Ok tt, self') <->
  exists collection,
    bound yaml_content = Some collection
    /\ Forall semantically_valid (prompts collection)
    /\ NoDup (map name (prompts collection))
    /\ self' = {| _templates := entries (prompts collection) |}.
Proof.
  destruct (cases yaml_content)
    as [(Hb & e & _ & Hrun)|(collection & Hb & _ & Hrun)].
  - rewrite Hrun, Hb. split; [discriminate|]. intros (c & Hc & _). discriminate.
  - rewrite Hrun, Hb.
    destruct (load_loop_run (prompts collection))
      as [(Hall & Hnd & Hloop)
         |(pre & x & post & msg & Hsplit & _ & _ & Hx & Hloop)];
      cbv zeta in Hloop; rewrite Hloop.
    + split.
      * intros [= <-]. eauto.
      * intros (c & [= <-] & _ & _ & ->). reflexivity.
    + split; [discriminate|].
      intros (c & [= <-] & Hall & Hnd & _). exfalso.
      rewrite Hsplit in Hall, Hnd. eapply split_at_failure; eauto.
Qed.

(** X7.  What [load_templates] raises.  On a text that is [None], empty
    or blank it raises [ValueError] and leaves the registry as it was.  On
    any other text every error that leaves the call is of the class
    [PromptValidationException]: a [YAMLError] of the parser, or any other
    exception of the parser or of the binding, never leaves it
    unwrapped. *)
Theorem load_error_classes yaml_content self e self' :
  load yaml_content self = (Raise e, self') ->
  (none_or_blank yaml_content = true
   /\ e = ValueError "yaml_content cannot be None or empty"
   /\ self' = self)
  \/ (none_or_blank yaml_content = false
      /\ is_PromptValidationException e = true
      /\ is_YAMLError e = false).
Proof.
  assert (Hclass : forall x, is_PromptValidationException x = true ->
                             is_YAMLError x = false)
    by (intros []; simpl; congruence).
  destruct (cases yaml_content)
    as [(_ & e' & He' & Hrun)|(collection & _ & Hnb & Hrun)].
  - rewrite Hrun. intros [= <- <-].
    destruct (none_or_blank yaml_content); [left|right]; auto.
  - rewrite Hrun.
    destruct (load_loop_run (prompts collection))
      as [(_ & _ & Hloop)|(pre & x & post & msg & _ & _ & _ & _ & Hloop)];
      cbv zeta in Hloop; rewrite Hloop; [discriminate|].
    intros [= <- _]. right. auto.
Qed.

(** X8.  The shape of the registry is kept: a new manager has distinct
    names, each template filed under the name of its own specification,
    and only specifications that meet the semantic rules; [clear] gives
    such a registry, and so does every call of [load_templates], whether it
    returns or raises, from a registry of that shape. *)
Theorem registry_invariant yaml_content self :
  registry_ok self ->
  registry_ok PromptManager_init
  /\ registry_ok (snd (clear self))
  /\ registry_ok (snd (load yaml_content self)).
Proof.
  intros Hok.
  assert (Hempty : registry_ok {| _templates := empty |})
    by (split; constructor).
  assert (Hentries : forall specifications,
            Forall semantically_valid specifications ->
            NoDup (map name specifications) ->
            registry_ok {| _templates := entries specifications |}).
  { intros specifications Hall Hnd. split.
    - cbn [_templates]. now rewrite keys_entries.
    - cbn [_templates]. unfold entries. apply Forall_map.
      eapply Forall_impl; [exact Hall|]. intros x Hx. split; [reflexivity|exact Hx]. }
  split; [exact Hempty|]. split; [exact Hempty|].
  destruct (cases yaml_content)
    as [(_ & e & _ & Hrun)|(collection & _ & _ & Hrun)].
  - now rewrite Hrun.
  - rewrite Hrun.
    destruct (load_loop_run (prompts collection))
      as [(Hall & Hnd & Hloop)
         |(pre & x & post & msg & _ & Hpre & Hnd & _ & Hloop)];
      cbv zeta in Hloop; rewrite Hloop; cbn [snd]; auto.
Qed.

(** X10.  After a successful load the registry answers for the document:
    the names are those of the collection in document order, the count is
    their number, [get_all_prompts] gives the templates in the same order,
    each specification is found under its name by [get_prompt],
    [get_required_prompt] and [has_prompt], and a name the collection lacks
    is not found. *)
Theorem lookups_after_load yaml_content self self' :
  load yaml_content self = (Ok tt, self') ->
  exists collection,
    bound yaml_content = Some collection
    /\ template_names self' = (Ok (map name (prompts collection)), self')
    /\ template_count self' = (Ok (length (prompts collection)), self')
    /\ get_all_prompts self'
       = (Ok (map (fun s => {| _specification := s |}) (prompts collection)),
          self')
    /\ (forall s, In s (prompts collection) ->
          get_prompt (Some (name s)) self'
          = (Ok (Some {| _specification := s |}), self')
          /\ get_required_prompt (Some (name s)) self'
             = (Ok {| _specification := s |}, self')
          /\ has_prompt (Some (name s)) self' = (Ok true, self'))
    /\ (forall n, ~ In n (map name (prompts collection)) ->
          has_prompt (Some n) self' = (Ok false, self')
          /\ (strip n <> EmptyString ->
              get_prompt (Some n) self' = (Ok None, self')
              /\ get_required_prompt (Some n) self'
                 = (Raise (PromptNotFoundException n), self'))).
Proof.
  intros Hload.
  destruct (cases yaml_content)
    as [(_ & e & _ & Hrun)|(collection & Hb & _ & Hrun)];
    rewrite Hrun in Hload; [discriminate|].
  destruct (load_loop_run (prompts collection))
    as [(Hall & Hnd & Hloop)|(pre & x & post & msg & _ & _ & _ & _ & Hloop)];
    cbv zeta in Hloop; rewrite Hloop in Hload; [|discriminate].
  injection Hload as <-. exists collection. split; [exact Hb|].
  split. { unfold template_names, gets. cbn [_templates]. now rewrite keys_entries. }
  split. { unfold template_count, gets, len, entries. cbn [_templates].
           now rewrite length_map. }
  split. { unfold get_all_prompts, gets, values, entries. cbn [_templates].
           now rewrite map_map. }
  split.
  - intros s Hin.
    assert (Hname : none_or_blank (Some (name s)) = false).
    { apply valid_name_not_blank. rewrite List.Forall_forall in Hall.
      now apply Hall. }
    assert (Hget : get_prompt (Some (name s))
                     {| _templates := entries (prompts collection) |}
                   = (Ok (Some {| _specification := s |}),
                      {| _templates := entries (prompts collection) |})).
    { unfold get_prompt. rewrite Hname. unfold gets.
      change (the_str (Some (name s))) with (name s).
      cbn [_templates]. now rewrite get_entries. }
    split; [exact Hget|]. split.
    + unfold get_required_prompt. erewrite bind_ok by exact Hget. reflexivity.
    + unfold has_prompt. cbn in Hname. apply orb_false_iff in Hname as [H1 H2].
      apply negb_false_iff in H1. apply negb_false_iff in H2.
      rewrite H1, H2. unfold gets, contains. cbn [_templates andb].
      now rewrite get_entries.
  - intros n Hn.
    assert (Hnone : get (entries (prompts collection)) n = None).
    { apply get_absent. now rewrite keys_entries. }
    split.
    + unfold has_prompt.
      destruct (str_truthy n && str_truthy (strip n)); [|reflexivity].
      unfold gets, contains. cbn [_templates]. now rewrite Hnone.
    + intros Hstrip. apply valid_name_not_blank in Hstrip.
      assert (Hget : get_prompt (Some n)
                       {| _templates := entries (prompts collection) |}
                     = (Ok None, {| _templates := entries (prompts collection) |})).
      { unfold get_prompt. rewrite Hstrip. unfold gets.
        change (the_str (Some n)) with n.
        cbn [_templates]. now rewrite Hnone. }
      split; [exact Hget|].
      unfold get_required_prompt. erewrite bind_ok by exact Hget. reflexivity.
Qed.

(** X12.  [load_templates] does not look at the registry it is called on:
    from any two registries it gives the same outcome for the same text,
    and, when the text binds to a collection, the same registry; when it
    does not bind, each registry is left as it was. *)
Theorem load_ignores_previous_registry yaml_content self1 self2 :
  outcome (load yaml_content) self1 = outcome (load yaml_content) self2
  /\ match bound yaml_content with
     | Some _ => snd (load yaml_content self1) = snd (load yaml_content self2)
     | None => snd (load yaml_content self1) = self1
               /\ snd (load yaml_content self2) = self2
     end.
Proof.
  unfold outcome.
  destruct (cases yaml_content)
    as [(Hb & e & _ & Hrun)|(collection & Hb & _ & Hrun)];
    rewrite Hb, !Hrun; auto.
Qed.

End ManagerProperties.

(** X9.  In a registry of the shape the manager keeps, every name that
    [template_names] lists is usable: it is not blank, [has_prompt]
    answers true for it, and [get_required_prompt] returns, without
    raising, a template whose own name it is. *)
Theorem listed_names_are_retrievable self names n :
  registry_ok self ->
  template_names self = (Ok names, self) ->
  In n names ->
  strip n <> EmptyString
  /\ has_prompt (Some n) self = (Ok true, self)
  /\ exists t,
       get_required_prompt (Some n) self = (Ok t, self)
       /\ name (_specification t) = n.
Proof.
  intros [_ Hall] [= <-] Hin.
  pose proof Hin as Hc. apply contains_keys in Hc. unfold contains in Hc.
  destruct (get (_templates self) n) as [t|] eqn:Hget; [|discriminate].
  apply get_In in Hget as Hentry.
  rewrite List.Forall_forall in Hall.
  destruct (Hall _ Hentry) as [Hname (Hvalid & _)]. cbn [fst snd] in *.
  assert (Hstrip : strip n <> EmptyString) by now rewrite Hname.
  pose proof (valid_name_not_blank n Hstrip) as Hnb.
  split; [exact Hstrip|]. split.
  - unfold has_prompt. cbn in Hnb. apply orb_false_iff in Hnb as [H1 H2].
    apply negb_false_iff in H1. apply negb_false_iff in H2.
    rewrite H1, H2. unfold gets, contains. cbn [andb]. now rewrite Hget.
  - exists t. split; [|now symmetry].
    unfold get_required_prompt, get_prompt, bind. rewrite Hnb.
    unfold gets. change (the_str (Some n)) with n. now rewrite Hget.
Qed.

(** X11.  The three lookups agree, in any registry.  [has_prompt] answers
    true exactly when [get_prompt] returns a template;
    [get_required_prompt] returns exactly the template [get_prompt]
    returns, and raises [PromptNotFoundException] carrying the name
    exactly when [get_prompt] returns [None]; for a blank name
    [has_prompt] answers false while the other two raise [ValueError]; and
    none of the three changes the registry. *)
Theorem lookup_agreement self n :
  (outcome (has_prompt (Some n)) self = Ok true
   <-> exists t, outcome (get_prompt (Some n)) self = Ok (Some t))
  /\ (forall t, outcome (get_required_prompt (Some n)) self = Ok t
                <-> outcome (get_prompt (Some n)) self = Ok (Some t))
  /\ (outcome (get_required_prompt (Some n)) self
        = Raise (PromptNotFoundException n)
      <-> outcome (get_prompt (Some n)) self = Ok None)
  /\ (strip n = EmptyString ->
      outcome (has_prompt (Some n)) self = Ok false
      /\ outcome (get_prompt (Some n)) self
         = Raise (ValueError "prompt_name cannot be None or empty")
      /\ outcome (get_required_prompt (Some n)) self
         = Raise (ValueError "prompt_name cannot be None or empty"))
  /\ snd (has_prompt (Some n) self) = self
  /\ snd (get_prompt (Some n) self) = self
  /\ snd (get_required_prompt (Some n) self) = self.
Proof.
  unfold outcome, get_required_prompt, get_prompt, has_prompt, bind.
  destruct (none_or_blank (Some n)) eqn:Hnb.
  - pose proof Hnb as Hblank. apply none_or_blank_spec in Hblank.
    cbn in Hnb. apply orb_true_iff in Hnb.
    assert (Hand : str_truthy n && str_truthy (strip n) = false).
    { destruct Hnb as [H|H]; apply negb_true_iff in H; rewrite H;
        [reflexivity|apply andb_false_r]. }
    rewrite Hand. cbn.
    repeat split; try discriminate; try (intros [t H]; discriminate);
      intros; discriminate.
  - assert (Hstrip : strip n <> EmptyString).
    { intros H. apply none_or_blank_spec in H. congruence. }
    cbn in Hnb. apply orb_false_iff in Hnb as [H1 H2].
    apply negb_false_iff in H1. apply negb_false_iff in H2.
    rewrite H1, H2. unfold gets, contains. change (the_str (Some n)) with n.
    cbn [andb fst snd].
    destruct (get (_templates self) n) as [t|]; cbn.
    + repeat split; try discriminate; try congruence; eauto.
    + repeat split; try discriminate; try congruence.
      all: try (intros [t' H]; discriminate).
Qed.

(** The loop of [_validate_specification] raises at the first blank
    placeholder name, with a message that names the prompt. *)
Lemma validate_keys_blank specification d (self : PromptManager) :
  (exists k def, In (k, def) d /\ strip k = EmptyString) ->
  for_each d (validate_placeholder_key specification) self
  = (Raise (PromptValidationException
              ("Placeholder name cannot be empty in prompt '"
               +:+ name specification +:+ "'.") None), self).
Proof.
  induction d as [|[k' def'] d IH]; intros (k & def & Hin & Hk);
    [destruct Hin|].
  cbn [for_each validate_placeholder_key].
  destruct (negb (str_truthy (strip k'))) eqn:E; [reflexivity|].
  cbn [bind ret]. apply IH. destruct Hin as [[= -> ->]|Hin]; [|eauto].
  rewrite Hk in E. discriminate.
Qed.

(** X14.  [_validate_specification] checks the name, then the template,
    then the declared placeholder names, and reports the first rule that
    is broken: a blank name gives the error about the name whatever the
    rest is; with a good name a blank template gives the error about the
    template, naming the prompt; with both good a blank placeholder name
    gives the error about placeholder names; and it returns exactly when
    the specification meets all three rules.  The registry is not
    touched. *)
Theorem validate_specification_outcomes specification (self : PromptManager) :
  (strip (name specification) = EmptyString ->
   _validate_specification specification self
   = (Raise (PromptValidationException
               "Prompt name is required and cannot be empty." None), self))
  /\ (strip (name specification) <> EmptyString ->
      strip (template specification) = EmptyString ->
      _validate_specification specification self
      = (Raise (PromptValidationException
                  ("Template is required for prompt '"
                   +:+ name specification +:+ "' and cannot be empty.") None),
         self))
  /\ (strip (name specification) <> EmptyString ->
      strip (template specification) <> EmptyString ->
      blank_placeholder_key specification ->
      _validate_specification specification self
      = (Raise (PromptValidationException
                  ("Placeholder name cannot be empty in prompt '"
                   +:+ name specification +:+ "'.") None), self))
  /\ (semantically_valid specification
      <-> _validate_specification specification self = (Ok tt, self)).
Proof.
  assert (Hgood : forall s, s <> EmptyString -> negb (str_truthy s) = false).
  { intros s Hs. destruct (negb (str_truthy s)) eqn:E; [|reflexivity].
    apply str_truthy_empty in E. contradiction. }
  split; [|split; [|split]].
  - intros Hn. unfold _validate_specification. now rewrite Hn.
  - intros Hn Ht. unfold _validate_specification.
    rewrite (Hgood _ Hn), Ht. reflexivity.
  - intros Hn Ht (d & k & def & Hd & Hin & Hk).
    unfold _validate_specification. rewrite (Hgood _ Hn), (Hgood _ Ht), Hd.
    cbn [bind ret].
    destruct d as [|item d]; [destruct Hin|]. cbn [truthy]. unfold items.
    apply validate_keys_blank. eauto.
  - destruct (validate_specification_cases specification self)
      as [[Hv Hok]|[Hno [msg Hr]]].
    + tauto.
    + split; [contradiction|]. rewrite Hr. discriminate.
Qed.

Section FileLoadingProperties.
Variable yaml_data : Type.
Variable yaml_safe_load : string -> result yaml_data.
Variable yaml_truthy : yaml_data -> bool.
Variable yaml_contains : string -> yaml_data -> result bool.
Variable model_validate : yaml_data -> result PromptCollection.
Variable os_error : Type.
Variable path_exists : string -> bool.
Variable read_text : string -> os_error + string.

Local Abbreviation load :=
  (load_templates yaml_data yaml_safe_load yaml_truthy yaml_contains
     model_validate).
Local Abbreviation load_file :=
  (load_templates_from_file yaml_data yaml_safe_load yaml_truthy
     yaml_contains model_validate os_error path_exists read_text).
Local Abbreviation load_file_async :=
  (load_templates_from_file_async yaml_data yaml_safe_load yaml_truthy
     yaml_contains model_validate os_error path_exists read_text).

(** Awaiting the asynchronous text loader runs the text loader. *)
Lemma await_load_async yaml_content self :
  await (load_templates_async yaml_data yaml_safe_load yaml_truthy
           yaml_contains model_validate yaml_content) self
  = load yaml_content self.
Proof.
  unfold load_templates_async, load_templates, await.
  destruct (none_or_blank yaml_content); [reflexivity|].
  unfold try_except. f_equal.
Qed.


End FileLoadingProperties.

(* ===================================================================== *)
(** ** The further properties at the scenarios *)
(* ===================================================================== *)

Lemma test_specification_valid : semantically_valid test_specification.
Proof.
  split; [vm_compute; discriminate|]. split; [vm_compute; discriminate|].
  intros d [= <-]. constructor; [vm_compute; discriminate|constructor].
Qed.

Lemma loaded_manager_ok : registry_ok loaded_manager.
Proof.
  assert (H : loaded_manager = {| _templates := entries [test_specification] |})
    by (vm_compute; reflexivity).
  rewrite H. split; cbn.
  - apply NoDup_singleton.
  - constructor; [|constructor]. split; [reflexivity|].
    apply test_specification_valid.
Qed.

(** X7 at the document with a repeated name. *)
Lemma load_error_classes_witness :
  (none_or_blank (Some doc_duplicate) = true
   /\ PromptValidationException "Duplicate prompt name 'duplicate' found." None
      = ValueError "yaml_content cannot be None or empty"
   /\ {| _templates := entries [first_duplicate] |} = loaded_manager)
  \/ (none_or_blank (Some doc_duplicate) = false
      /\ is_PromptValidationException
           (PromptValidationException
              "Duplicate prompt name 'duplicate' found." None) = true
      /\ is_YAMLError
           (PromptValidationException
              "Duplicate prompt name 'duplicate' found." None) = false).
Proof.
  apply (load_error_classes (list PromptSpecification) parse_known
           (fun _ => true) (fun _ _ => Ok true)
           (fun specifications => Ok {| prompts := specifications |})
           (Some doc_duplicate) loaded_manager
           (PromptValidationException
              "Duplicate prompt name 'duplicate' found." None)
           {| _templates := entries [first_duplicate] |}).
  vm_compute. reflexivity.
Defined.

(** X8 at the manager that has loaded the test document, for the load of
    the document with a repeated name. *)
Lemma registry_invariant_witness :
  registry_ok PromptManager_init
  /\ registry_ok (snd (clear loaded_manager))
  /\ registry_ok (snd (load_known (Some doc_duplicate) loaded_manager)).
Proof.
  exact (registry_invariant (list PromptSpecification) parse_known
           (fun _ => true) (fun _ _ => Ok true)
           (fun specifications => Ok {| prompts := specifications |})
           (Some doc_duplicate) loaded_manager loaded_manager_ok).
Defined.

(** X9 at the manager that has loaded the test document. *)
Lemma listed_names_are_retrievable_witness :
  strip "test" <> EmptyString
  /\ has_prompt (Some "test") loaded_manager = (Ok true, loaded_manager)
  /\ exists t,
       get_required_prompt (Some "test") loaded_manager = (Ok t, loaded_manager)
       /\ name (_specification t) = "test".
Proof.
  apply (listed_names_are_retrievable loaded_manager ["test"] "test").
  - exact loaded_manager_ok.
  - vm_compute. reflexivity.
  - left. reflexivity.
Defined.

(** X10 at the load of the test document by a new manager. *)
Lemma lookups_after_load_witness :
  exists collection,
    bound_known (Some doc_test) = Some collection
    /\ template_names loaded_manager
       = (Ok (map name (prompts collection)), loaded_manager)
    /\ template_count loaded_manager
       = (Ok (length (prompts collection)), loaded_manager).
Proof.
  destruct (lookups_after_load (list PromptSpecification) parse_known
              (fun _ => true) (fun _ _ => Ok true)
              (fun specifications => Ok {| prompts := specifications |})
              (Some doc_test) PromptManager_init loaded_manager)
    as (collection & Hb & Hnames & Hcount & _).
  - vm_compute. reflexivity.
  - exists collection. repeat split; assumption.
Defined.

(** X11 at the manager that has loaded the test document, for a blank
    name. *)
Lemma lookup_agreement_witness :
  outcome (has_prompt (Some "  ")) loaded_manager = Ok false
  /\ outcome (get_prompt (Some "  ")) loaded_manager
     = Raise (ValueError "prompt_name cannot be None or empty")
  /\ outcome (get_required_prompt (Some "  ")) loaded_manager
     = Raise (ValueError "prompt_name cannot be None or empty").
Proof.
  apply (lookup_agreement loaded_manager "  "). reflexivity.
Defined.


(** X14 at a specification with a good name and a blank template. *)
Lemma validate_specification_outcomes_witness :
  _validate_specification (specification_of "draft" "   " None)
    PromptManager_init
  = (Raise (PromptValidationException
              "Template is required for prompt 'draft' and cannot be empty."
              None),
     PromptManager_init).
Proof.
  apply (validate_specification_outcomes (specification_of "draft" "   " None)
           PromptManager_init).
  - vm_compute. discriminate.
  - vm_compute. reflexivity.
Defined.

(* ===================================================================== *)
(** ** Names and types *)
(* ===================================================================== *)

(** An occurrence has a well-formed name, and its text is part of the
    template. *)
Lemma occurs_shape n s :
  occurs n s ->
  n <> EmptyString /\ has_char "}" n = false
  /\ exists pre post, s = pre +:+ braced n +:+ post.
Proof.
  induction 1 as [s rest (-> & Hn & Hc)
                 |s n' rest (-> & _ & _) _ (Hn & Hc & pre & post & ->)
                 |c s _ _ (Hn & Hc & pre & post & ->)].
  - repeat split; auto. exists EmptyString, rest.
    unfold braced. now rewrite placeholder_text_split.
  - repeat split; auto. exists (braced n' +:+ pre), post.
    unfold braced at 1. rewrite placeholder_text_split.
    now rewrite append_assoc.
  - repeat split; auto. now exists (String c pre), post.
Qed.

(** X15.  Every name [get_placeholder_names] returns is well formed and
    really in the template: it is not empty, it has no closing brace, and
    the template contains it between an opening and a closing brace. *)
Theorem placeholder_names_well_formed self names n :
  get_placeholder_names self = (Ok names, self) ->
  In n names ->
  n <> EmptyString
  /\ has_char "}" n = false
  /\ exists pre post,
       template (_specification self) = pre +:+ braced n +:+ post.
Proof.
  intros [= <-] Hin. apply occurs_shape, findall_occurs.
  apply list_elem_of_In in Hin. apply elem_of_elements in Hin.
  apply elem_of_list_to_set in Hin. now apply list_elem_of_In.
Qed.

(** X15 at the greeting, for the name it does not declare. *)
Lemma placeholder_names_well_formed_witness :
  "platform" <> EmptyString
  /\ has_char "}" "platform" = false
  /\ exists pre post,
       "Hello {name}! Welcome to {platform}." = pre +:+ braced "platform" +:+ post.
Proof.
  apply (placeholder_names_well_formed greeting ["name"; "platform"] "platform").
  - vm_compute. reflexivity.
  - right. left. reflexivity.
Defined.

(** X16.  Which values pass the check of a declared placeholder.  For a
    name the mapping has, the check passes exactly when the value is
    [None] or the declared type accepts it: a string declaration accepts
    strings and objects of other classes such as lists, a number
    declaration accepts ints, floats and also booleans, and a boolean
    declaration accepts no value at all, a boolean included. *)
Theorem type_acceptance self (replacements : gmap string value) n def v :
  replacements !! n = Some v ->
  (outcome (validate_item replacements (n, def)) self = Ok tt
   <-> v = VNone \/ accepts (type def) v = true).
Proof.
  intros Hn. unfold outcome, validate_item, has_key. rewrite Hn, andb_false_r.
  destruct def as [t r]. cbn [type].
  destruct t, v; cbn; split; intros H; try reflexivity; try discriminate;
    try (now left); try (now right);
    destruct H as [H|H]; discriminate.
Qed.

(** X16 at a flag declared boolean and given [True]. *)
Lemma type_acceptance_witness :
  outcome (validate_item (<["flag" := VBool true]> ∅)
             ("flag", {| type := TBoolean; required := false |})) switches
    = Ok tt
  <-> VBool true = VNone
      \/ accepts (type {| type := TBoolean; required := false |}) (VBool true)
         = true.
Proof.
  apply (type_acceptance switches (<["flag" := VBool true]> ∅) "flag"
           {| type := TBoolean; required := false |} (VBool true)).
  vm_compute. reflexivity.
Defined.
